(** * Small caps, low P/E ratio strategy: the two framework modules

    A shallow embedding of

    - [Portfolio/CustomEqualWeightingPortfolioConstruction.py]
      (class [CustomEqualWeightingPortfolioConstructionModel]), and
    - [Universe/SmallCapsLowPERatioUniverseSelection.py]
      (class [SmallCapsLowPERatioUniverseSelectionModel]),

    followed by the properties of their callbacks.

    Conventions of the embedding.

    - Python [float] is IEEE binary64.  Every finite binary64 number is a
      rational, so float values live in [Q]; an arithmetic operation is the
      exact rational operation followed by rounding to 53 significant bits,
      ties to even (module [Float]).
    - [self] is an explicit record; a method takes it and returns the new one.
    - A Python exception is [None] in the option monad.
    - A [datetime] is the number of microseconds since [datetime.min]; a
      sum of a [datetime] and a [timedelta] that leaves the calendar, and a
      [timedelta] of too many days, raise [OverflowError].
    - The engine that calls the modules (insight collection, portfolio,
      [PortfolioTarget.Percent], clock) is not part of the repository: it is
      the interface [Host], and the theorems hold for every implementation
      of it.  [ListHost] is one implementation, used for concrete runs.
    - [algorithm.Log] appends a line to the engine's log; a method returns the
      lines it logged. *)

From Stdlib Require Import ZArith QArith Qabs Qround Lia.
From stdpp Require Import gmap strings list pretty.

Open Scope Z_scope.

(* ================================================================== *)
(** * Part I: definitions *)
(* ================================================================== *)

(** ** Rational comparisons as booleans *)

Definition Qltb (x y : Q) : bool := Qnum x * QDen y <? Qnum y * QDen x.
Definition Qleb (x y : Q) : bool := Qnum x * QDen y <=? Qnum y * QDen x.

(** ** binary64 arithmetic *)

Module Float.

(** Nearest integer to [a / b] for [0 < b], ties to the even one. *)
Definition rne (a b : Z) : Z :=
  let q := a / b in
  match 2 * (a mod b) ?= b with
  | Lt => q
  | Gt => q + 1
  | Eq => if Z.even q then q else q + 1
  end.

(** [a / b * 2 ^ s] as a fraction of integers, [s] of either sign. *)
Definition scale (a b s : Z) : Z * Z :=
  (a * 2 ^ Z.max s 0, b * 2 ^ Z.max (- s) 0).

(** The shift [s] that brings [a / b] into the binade of 53-bit
    significands: [2 ^ 52 <= a / b * 2 ^ s < 2 ^ 53]. *)
Definition exponent (a b : Z) : Z :=
  let s0 := 52 - Z.log2 a + Z.log2 b in
  let '(n, d) := scale a b s0 in
  if n <? 2 ^ 52 * d then s0 + 1 else s0.

(** Rounding of the positive rational [a / b]: the significand is the
    nearest integer to [a / b * 2 ^ s].  The exponent range of binary64
    (overflow above [2 ^ 1024], subnormals below [2 ^ -1022]) is not
    modelled. *)
Definition round_pos (a b : Z) : Q :=
  let s := exponent a b in
  let '(n, d) := scale a b s in
  (rne n d * 2 ^ Z.max (- s) 0) # Z.to_pos (2 ^ Z.max s 0).

Definition round (x : Q) : Q :=
  match Qnum x with
  | Z0 => 0%Q
  | Zpos a => round_pos (Zpos a) (Zpos (Qden x))
  | Zneg a => (- round_pos (Zpos a) (Zpos (Qden x)))%Q
  end.

(** [float(n)] for a Python [int]. *)
Definition of_int (n : Z) : Q := round (inject_Z n).

Definition add (x y : Q) : Q := round (x + y).
Definition mul (x y : Q) : Q := round (x * y).
Definition div (x y : Q) : Q := round (x / y).

(** Python's [sum] of floats, before 3.12: left to right from [0]. *)
Definition sum (l : list Q) : Q := fold_left add l 0%Q.

Definition in_binade (a b s : Z) : Prop :=
  2 ^ 52 * snd (scale a b s) <= fst (scale a b s) < 2 ^ 53 * snd (scale a b s).

End Float.

(** Exact sum of rationals. *)
Definition Qsum (l : list Q) : Q := foldr Qplus 0%Q l.

(** ** The Python library functions the modules call *)

Module Py.

(** [sum] of a list of [int]. *)
Definition sum (l : list Z) : Z := fold_left Z.add l 0.

(** [True] is [1] and [False] is [0] when booleans are summed. *)
Definition int_of_bool (b : bool) : Z := if b then 1 else 0.

(** [itertools.groupby(l, key)]: the maximal runs of consecutive elements
    with equal keys, each with the key of its first element. *)
Fixpoint groupby {A K : Type} `{EqDecision K} (key : A → K) (l : list A)
  : list (K * list A) :=
  match l with
  | [] => []
  | x :: t =>
      match groupby key t with
      | (k, g) :: rest =>
          if decide (key x = k) then (key x, x :: g) :: rest
          else (key x, [x]) :: (k, g) :: rest
      | [] => [(key x, [x])]
      end
  end.

(** [sorted(l, key = key)] is stable: an element goes after the elements
    already placed whose key is not larger. *)
Fixpoint insert_by {A : Type} (key : A → Z) (x : A) (l : list A) : list A :=
  match l with
  | [] => [x]
  | y :: t => if key x <? key y then x :: y :: t else y :: insert_by key x t
  end.

Definition sorted {A : Type} (key : A → Z) (l : list A) : list A :=
  fold_left (λ acc x, insert_by key x acc) l [].

(** The same for a list of floats, [ndarray.sort]. *)
Fixpoint insert_float (x : Q) (l : list Q) : list Q :=
  match l with
  | [] => [x]
  | y :: t => if Qltb x y then x :: y :: t else y :: insert_float x t
  end.

Definition sort_floats (l : list Q) : list Q :=
  fold_left (λ acc x, insert_float x acc) l [].

(** [str(n)] for a non-negative [int]. *)
Definition str_int (n : nat) : string := pretty (N.of_nat n).

End Py.

(** ** Records of the engine *)

(** A point in time, in microseconds since [datetime.min].  A [datetime]
    is a point from [UTCMIN] to [DATETIME_MAX]. *)
Definition DateTime : Type := Z.

(** [datetime.min.replace(tzinfo=utc)] *)
Definition UTCMIN : DateTime := 0.

(** [datetime.max], the last microsecond of the year 9999: day 3652059 of
    the calendar ends with it. *)
Definition DATETIME_MAX : DateTime := 3652059 * 86400000000 - 1.

(** [timedelta(days = n)], in microseconds; [None] is the [OverflowError]
    of a number of days beyond 999999999. *)
Definition timedelta_days (n : Z) : option Z :=
  if (-999999999 <=? n) && (n <=? 999999999) then Some (n * 86400000000)
  else None.

(** [dt + delta] for a [datetime] and a [timedelta]; [None] is the
    [OverflowError] of a result that is not a [datetime]. *)
Definition datetime_add (dt : DateTime) (delta : Z) : option DateTime :=
  if (UTCMIN <=? dt + delta) && (dt + delta <=? DATETIME_MAX) then Some (dt + delta)
  else None.

Module Symbol.
Record t : Type := mk { Value : string }.

#[global] Instance eq_dec : EqDecision t.
Proof. solve_decision. Defined.

#[global] Instance countable : Countable t.
Proof. apply (inj_countable' Value mk). by intros []. Defined.
End Symbol.

(** [InsightDirection], a C# enum: [Down = -1], [Flat = 0], [Up = 1]. *)
Inductive InsightDirection : Type := Down | Flat | Up.

Definition direction_value (d : InsightDirection) : Z :=
  match d with Down => -1 | Flat => 0 | Up => 1 end.

#[global] Instance InsightDirection_eq_dec : EqDecision InsightDirection.
Proof. solve_decision. Defined.

#[global] Instance InsightDirection_countable : Countable InsightDirection.
Proof.
  apply (inj_countable' direction_value
           (λ z, match z with Zneg _ => Down | Z0 => Flat | Zpos _ => Up end)).
  by intros [].
Defined.

Module Insight.
(** An insight is an object of the engine.  [Id] is its identity (the
    engine gives every insight a fresh GUID): a dictionary keyed by
    insights tells two insights apart when they are different objects. *)
Record t : Type := mk {
  Id : positive;
  Symbol : Symbol.t;
  Direction : InsightDirection;
  GeneratedTimeUtc : DateTime;
  CloseTimeUtc : DateTime
}.

#[global] Instance eq_dec : EqDecision t.
Proof. solve_decision. Defined.

#[global] Instance countable : Countable t.
Proof.
  apply (inj_countable'
           (λ i, (Id i, Symbol i, Direction i, GeneratedTimeUtc i, CloseTimeUtc i))
           (λ '(a, b, c, d, e), mk a b c d e)).
  by intros [].
Defined.
End Insight.

Module PortfolioTarget.
(** [PortfolioTarget(symbol, quantity)] *)
Record t : Type := mk { Symbol : Symbol.t; Quantity : Q }.
End PortfolioTarget.

Module Security.
Record t : Type := mk { Symbol : Symbol.t }.
End Security.

Module SecurityChanges.
Record t : Type := mk {
  AddedSecurities : list Security.t;
  RemovedSecurities : list Security.t
}.
End SecurityChanges.

(** [algorithm.Portfolio[symbol]] *)
Module SecurityHolding.
Record t : Type := mk { Invested : bool; IsLong : bool; IsShort : bool }.
End SecurityHolding.

(** ** The engine, as the portfolio construction model sees it *)

Class Host : Type := {
  (** [InsightCollection] and its methods; a method that mutates the
      collection returns the collection after the call *)
  InsightCollection : Type;
  InsightCollection_new : InsightCollection;
  Add : InsightCollection → Insight.t → InsightCollection;
  GetActiveInsights : InsightCollection → DateTime → list Insight.t;
  RemoveExpiredInsights :
    InsightCollection → DateTime → list Insight.t * InsightCollection;
  HasActiveInsights : InsightCollection → Symbol.t → DateTime → bool;
  GetNextExpiryTime : InsightCollection → option DateTime;
  Clear : InsightCollection → list Symbol.t → InsightCollection;
  (** the algorithm instance *)
  Algorithm : Type;
  UtcTime : Algorithm → DateTime;
  Portfolio : Algorithm → Symbol.t → SecurityHolding.t;
  (** [PortfolioTarget.Percent(algorithm, symbol, percent)]; [None] is the
      engine's null *)
  Percent : Algorithm → Symbol.t → Q → option PortfolioTarget.t
}.

(** ** CustomEqualWeightingPortfolioConstructionModel *)

Module PortfolioModel.

(** [self].  [rebalancing] holds [True] (as [1]) or the constructor's
    argument ([False] as [0]); [rebalancingFunc] is [None] while the
    attribute is not set, and the function it holds returns [None] when it
    raises. *)
Record t `{Host} : Type := mk {
  insightCollection : InsightCollection;
  removedSymbols : option (list Symbol.t);
  nextExpiryTime : DateTime;
  rebalancingTime : DateTime;
  rebalancing : Z;
  rebalancingFunc : option (DateTime → option DateTime)
}.

Definition truthy (z : Z) : bool := negb (z =? 0).

Section Methods.
Context `{Host}.

(** [__init__(self, rebalancingParam = False)]: [self] when the
    constructor returns. *)
Definition init (rebalancingParam : Z) : option t :=
  if 0 <? rebalancingParam then
    rebalancingParam ← timedelta_days rebalancingParam;
    Some {| insightCollection := InsightCollection_new;
            removedSymbols := Some [];
            nextExpiryTime := UTCMIN;
            rebalancingTime := UTCMIN;
            rebalancing := 1;
            rebalancingFunc := Some (λ dt, datetime_add dt rebalancingParam) |}
  else
    Some {| insightCollection := InsightCollection_new;
            removedSymbols := Some [];
            nextExpiryTime := UTCMIN;
            rebalancingTime := UTCMIN;
            rebalancing := rebalancingParam;
            rebalancingFunc := None |}.

(** [count]: how many insights are not flat *)
Definition count (lastActiveInsights : list Insight.t) : Z :=
  Py.sum (map (λ x, Py.int_of_bool (bool_decide (Insight.Direction x ≠ Flat)))
              lastActiveInsights).

(** [percent = 0 if count == 0 else 1.0 / count] *)
Definition percent (lastActiveInsights : list Insight.t) : Q :=
  if count lastActiveInsights =? 0 then 0%Q
  else Float.div 1 (Float.of_int (count lastActiveInsights)).

(** [DetermineTargetPercent(self, lastActiveInsights)]; the result is
    the dictionary [result] *)
Definition DetermineTargetPercent (lastActiveInsights : list Insight.t)
  : gmap Insight.t Q :=
  let percent := percent lastActiveInsights in
  fold_left
    (λ result insight,
       <[insight :=
           Float.mul (Float.of_int (direction_value (Insight.Direction insight)))
                     percent]> result)
    lastActiveInsights ∅.

(** [ShouldCreateTargets(self, algorithm, lastActiveInsights)] *)
Definition ShouldCreateTargets (self : t) (algorithm : Algorithm)
    (lastActiveInsights : list Insight.t) : bool :=
  if truthy (rebalancing self) && (rebalancingTime self <=? UtcTime algorithm)
  then true
  else
    existsb
      (λ insight,
         let holding := Portfolio algorithm (Insight.Symbol insight) in
         if negb (SecurityHolding.Invested holding)
            && bool_decide (Insight.Direction insight ≠ Flat) then true
         else if SecurityHolding.IsLong holding
                 && bool_decide (Insight.Direction insight ≠ Up) then true
         else if SecurityHolding.IsShort holding
                 && bool_decide (Insight.Direction insight ≠ Down) then true
         else false)
      lastActiveInsights.

(** [[PortfolioTarget(symbol, 0) for symbol in self.removedSymbols]] *)
Definition universeDeselectionTargets (removed : list Symbol.t)
  : list PortfolioTarget.t :=
  map (λ symbol, PortfolioTarget.mk symbol 0) removed.

(** The last generated active insight of each run of equal symbols:
    [sorted(g, key = lambda x: x.GeneratedTimeUtc)[-1]] *)
Definition lastActiveInsights_of (activeInsights : list Insight.t)
  : option (list Insight.t) :=
  mapM (λ '(symbol, g), last (Py.sorted Insight.GeneratedTimeUtc g))
       (Py.groupby Insight.Symbol activeInsights).

(** The loop over [lastActiveInsights] that fills [targets] and
    [errorSymbols]; [percents[insight]] raises [KeyError] on a key that
    is not in the dictionary. *)
Fixpoint percent_loop (algorithm : Algorithm) (percents : gmap Insight.t Q)
    (lastActiveInsights : list Insight.t)
    (targets : list PortfolioTarget.t) (errorSymbols : gmap Symbol.t Symbol.t)
  : option (list PortfolioTarget.t * gmap Symbol.t Symbol.t) :=
  match lastActiveInsights with
  | [] => Some (targets, errorSymbols)
  | insight :: rest =>
      p ← percents !! insight;
      match Percent algorithm (Insight.Symbol insight) p with
      | Some target =>
          percent_loop algorithm percents rest (targets ++ [target]) errorSymbols
      | None =>
          percent_loop algorithm percents rest targets
            (<[Insight.Symbol insight := Insight.Symbol insight]> errorSymbols)
      end
  end.

(** The loop over the runs of expired insights. *)
Definition expiredTargets (ic : InsightCollection) (now : DateTime)
    (errorSymbols : gmap Symbol.t Symbol.t)
    (expiredInsights : list Insight.t) : list PortfolioTarget.t :=
  omap
    (λ '(symbol, f),
       if negb (HasActiveInsights ic symbol now)
          && negb (bool_decide (is_Some (errorSymbols !! symbol)))
       then Some (PortfolioTarget.mk symbol 0)
       else None)
    (Py.groupby Insight.Symbol expiredInsights).

(** [CreateTargets(self, algorithm, insights)]: the returned list and
    [self] after the call. *)
Definition CreateTargets (self : t) (algorithm : Algorithm)
    (insights : list Insight.t) : option (list PortfolioTarget.t * t) :=
  let targets : list PortfolioTarget.t := [] in
  if (length insights =? 0)%nat
     && (UtcTime algorithm <=? nextExpiryTime self)
     && bool_decide (removedSymbols self = None)
  then Some (targets, self)
  else
    let ic := fold_left Add insights (insightCollection self) in
    let targets :=
      match removedSymbols self with
      | Some removed => targets ++ universeDeselectionTargets removed
      | None => targets
      end in
    let activeInsights := GetActiveInsights ic (UtcTime algorithm) in
    lastActiveInsights ← lastActiveInsights_of activeInsights;
    let errorSymbols : gmap Symbol.t Symbol.t := ∅ in
    '(targets, errorSymbols, rebalancingTime') ←
      (if ShouldCreateTargets self algorithm lastActiveInsights then
         let percents := DetermineTargetPercent lastActiveInsights in
         '(targets, errorSymbols) ←
           percent_loop algorithm percents lastActiveInsights targets errorSymbols;
         if truthy (rebalancing self) then
           rebalancingFunc ← rebalancingFunc self;
           rebalancingTime' ← rebalancingFunc (UtcTime algorithm);
           Some (targets, errorSymbols, rebalancingTime')
         else Some (targets, errorSymbols, rebalancingTime self)
       else Some (targets, errorSymbols, rebalancingTime self));
    let '(expiredInsights, ic) := RemoveExpiredInsights ic (UtcTime algorithm) in
    let targets :=
      targets ++ expiredTargets ic (UtcTime algorithm) errorSymbols expiredInsights in
    let nextExpiryTime' :=
      match GetNextExpiryTime ic with
      | Some time => time
      | None => UTCMIN
      end in
    Some (targets,
          {| insightCollection := ic;
             removedSymbols := None;
             nextExpiryTime := nextExpiryTime';
             rebalancingTime := rebalancingTime';
             rebalancing := rebalancing self;
             rebalancingFunc := rebalancingFunc self |}).

(** [OnSecuritiesChanged(self, algorithm, changes)] *)
Definition OnSecuritiesChanged (self : t) (algorithm : Algorithm)
    (changes : SecurityChanges.t) : t :=
  let removed := map Security.Symbol (SecurityChanges.RemovedSecurities changes) in
  {| insightCollection := Clear (insightCollection self) removed;
     removedSymbols := Some removed;
     nextExpiryTime := nextExpiryTime self;
     rebalancingTime := rebalancingTime self;
     rebalancing := rebalancing self;
     rebalancingFunc := rebalancingFunc self |}.

(** The update [self.rebalancingTime = self.rebalancingFunc(algorithm.UtcTime)]
    can run at the time [now]: when [rebalancing] is true, the attribute
    [rebalancingFunc] is set and the function returns a time for [now]. *)
Definition can_rebalance (self : t) (now : DateTime) : Prop :=
  truthy (rebalancing self) = true →
  ∃ f, rebalancingFunc self = Some f ∧ is_Some (f now).

End Methods.
End PortfolioModel.

(** ** What the universe selection model takes from its libraries *)

Class Library : Type := {
  (** [numpy.percentile(a, q)] of a list of floats, [None] when it raises *)
  percentile : list Q → Q → option Q;
  (** on the empty list NumPy indexes out of bounds: [IndexError] *)
  percentile_empty : ∀ q, percentile [] q = None;
  (** on every other list it returns a float *)
  percentile_nonempty :
    ∀ a q, a ≠ [] → (0 <= q)%Q → (q <= 100)%Q → is_Some (percentile a q);
  (** [str] of a float *)
  str_float : Q → string
}.

Module CoarseFundamental.
Record t : Type := mk {
  Symbol : Symbol.t;
  HasFundamentalData : bool;
  Price : Q
}.
End CoarseFundamental.

Module FineFundamental.
(** [PERatio] is [x.ValuationRatios.PERatio]. *)
Record t : Type := mk {
  Symbol : Symbol.t;
  MarketCap : Q;
  PERatio : Q
}.
End FineFundamental.

(** The algorithm instance, as the universe selection model reads it:
    [algorithm.Time.year]. *)
Module QCAlgorithm.
Record t : Type := mk { Time_year : Z }.
End QCAlgorithm.

(** ** SmallCapsLowPERatioUniverseSelectionModel *)

Module UniverseModel.

(** [self] *)
Record t : Type := mk { periodCheck : Z }.

(** What [SelectCoarse] returns: the engine's constant
    [Universe.Unchanged], or a list of symbols. *)
Inductive Selection : Type :=
| Unchanged
| Symbols (coarseSelection : list Symbol.t).

(** [__init__]: [self.periodCheck = -1] *)
Definition init : t := {| periodCheck := -1 |}.

Definition filterCoarse (coarse : list CoarseFundamental.t)
  : list CoarseFundamental.t :=
  filter (λ x, CoarseFundamental.HasFundamentalData x = true
               ∧ Qltb 5 (CoarseFundamental.Price x) = true) coarse.

(** [SelectCoarse(self, algorithm, coarse)]: the returned value, [self]
    after the call and the lines logged. *)
Definition SelectCoarse (self : t) (algorithm : QCAlgorithm.t)
    (coarse : list CoarseFundamental.t) : Selection * t * list string :=
  if QCAlgorithm.Time_year algorithm =? periodCheck self then (Unchanged, self, [])
  else
    let self := {| periodCheck := QCAlgorithm.Time_year algorithm |} in
    let filterCoarse := filterCoarse coarse in
    let log :=
      ["stocks with fundamental data and price above 5: "
         +:+ Py.str_int (length filterCoarse)] in
    let coarseSelection := map CoarseFundamental.Symbol filterCoarse in
    (Symbols coarseSelection, self, log).

(** [3e8 < x.MarketCap < 2e9 and x.ValuationRatios.PERatio > 0] *)
Definition small_cap (x : FineFundamental.t) : bool :=
  Qltb 300000000 (FineFundamental.MarketCap x)
  && Qltb (FineFundamental.MarketCap x) 2000000000
  && Qltb 0 (FineFundamental.PERatio x).

Definition filterFine (fine : list FineFundamental.t) : list FineFundamental.t :=
  filter (λ x, small_cap x = true) fine.

Definition peRatios (fine : list FineFundamental.t) : list Q :=
  map FineFundamental.PERatio (filterFine fine).

(** [filter(lambda x: x.ValuationRatios.PERatio <= lowestPERatioPercentile,
    filterFine)] *)
Definition lowestPERatio (lowestPERatioPercentile : Q)
    (filterFine : list FineFundamental.t) : list FineFundamental.t :=
  filter (λ x, Qleb (FineFundamental.PERatio x) lowestPERatioPercentile = true)
         filterFine.

Section Methods.
Context `{Library}.

(** [SelectFine(self, algorithm, fine)]: the returned list and the lines
    logged, or [None] when [numpy.percentile] raises. *)
Definition SelectFine (self : t) (algorithm : QCAlgorithm.t)
    (fine : list FineFundamental.t) : option (list Symbol.t * list string) :=
  let filterFine := filterFine fine in
  let log1 :=
    ["total number of small caps: " +:+ Py.str_int (length filterFine)] in
  let peRatios := map FineFundamental.PERatio filterFine in
  lowestPERatioPercentile ← percentile peRatios 1;
  let lowestPERatio := lowestPERatio lowestPERatioPercentile filterFine in
  let log2 :=
    ["small caps in the 1st PE Ratio percentile: "
       +:+ Py.str_int (length lowestPERatio)] in
  let log3 :=
    map (λ x, "stock: " +:+ Symbol.Value (FineFundamental.Symbol x)
              +:+ ", current PE Ratio: "
              +:+ str_float (FineFundamental.PERatio x))
        lowestPERatio in
  let fineSelection := map FineFundamental.Symbol lowestPERatio in
  Some (fineSelection, log1 ++ log2 ++ log3).

End Methods.
End UniverseModel.


(** ** One implementation of the engine *)

(** The insight collection as the list of its insights, oldest first.  An
    insight is expired at [utcTime] when [CloseTimeUtc < utcTime], and active
    otherwise.  A target for a percentage of the portfolio is the quantity
    that this share of the portfolio value buys; the engine returns null when
    the security has no price. *)
Module ListHost.

Record algorithm : Type := mk {
  utcTime : DateTime;
  holdings : Symbol.t → SecurityHolding.t;
  price : Symbol.t → Q;
  totalPortfolioValue : Q
}.

Definition isActive (utcTime : DateTime) (i : Insight.t) : Prop :=
  utcTime <= Insight.CloseTimeUtc i.

#[global] Instance isActive_dec utcTime i : Decision (isActive utcTime i).
Proof. unfold isActive. apply _. Defined.

Definition getActiveInsights (ic : list Insight.t) (utcTime : DateTime)
  : list Insight.t :=
  filter (isActive utcTime) ic.

Definition removeExpiredInsights (ic : list Insight.t) (utcTime : DateTime)
  : list Insight.t * list Insight.t :=
  (filter (λ i, ¬ isActive utcTime i) ic, filter (isActive utcTime) ic).

Definition hasActiveInsights (ic : list Insight.t) (symbol : Symbol.t)
    (utcTime : DateTime) : bool :=
  bool_decide (Exists (λ i, Insight.Symbol i = symbol ∧ isActive utcTime i) ic).

Definition getNextExpiryTime (ic : list Insight.t) : option DateTime :=
  match ic with
  | [] => None
  | i :: rest =>
      Some (fold_left Z.min (map Insight.CloseTimeUtc rest) (Insight.CloseTimeUtc i))
  end.

Definition clear (ic : list Insight.t) (symbols : list Symbol.t) : list Insight.t :=
  filter (λ i, Insight.Symbol i ∉ symbols) ic.

Definition percent (a : algorithm) (symbol : Symbol.t) (percent : Q)
  : option PortfolioTarget.t :=
  if Qleb (price a symbol) 0 then None
  else Some (PortfolioTarget.mk symbol
               (percent * totalPortfolioValue a / price a symbol)%Q).

#[global] Instance host : Host := {|
  InsightCollection := list Insight.t;
  InsightCollection_new := [];
  Add := λ ic i, ic ++ [i];
  GetActiveInsights := getActiveInsights;
  RemoveExpiredInsights := removeExpiredInsights;
  HasActiveInsights := hasActiveInsights;
  GetNextExpiryTime := getNextExpiryTime;
  Clear := clear;
  Algorithm := algorithm;
  UtcTime := utcTime;
  Portfolio := holdings;
  Percent := percent
|}.

End ListHost.

(** ** One implementation of [numpy.percentile] *)

(** The default method, linear interpolation between the two order
    statistics around the position [q / 100 * (n - 1)], here in exact
    arithmetic. *)
Module LinearPercentile.

(** [ap[i]] with NumPy's indices: a negative index counts from the end, an
    index outside the array raises [IndexError]. *)
Definition take (ap : list Q) (i : Z) : option Q :=
  let n := Z.of_nat (length ap) in
  if (0 <=? i) && (i <? n) then ap !! Z.to_nat i
  else if (- n <=? i) && (i <? 0) then ap !! Z.to_nat (n + i)
  else None.

Definition percentile (a : list Q) (q : Q) : option Q :=
  let ap := Py.sort_floats a in
  let Nx := Z.of_nat (length ap) in
  let indices := (q / 100 * inject_Z (Nx - 1))%Q in
  let indices_below := Qfloor indices in
  let indices_above := Z.min (indices_below + 1) (Nx - 1) in
  let weights_above := (indices - inject_Z indices_below)%Q in
  let weights_below := (1 - weights_above)%Q in
  x_below ← take ap indices_below;
  x_above ← take ap indices_above;
  Some (x_below * weights_below + x_above * weights_above)%Q.

(** A float that is not negative, printed with two digits after the point.
    Python's [str] prints the shortest digits that give the float back; this
    function stands for it in the sample runs only. *)
Definition str_float (x : Q) : string :=
  let cents := Qfloor (x * 100) mod 100 in
  pretty (Qfloor x) +:+ "." +:+ pretty (cents / 10) +:+ pretty (cents mod 10).

End LinearPercentile.



(** ** Notions used to state the properties *)

(** A float is a fixed point of rounding. *)
Definition representable (x : Q) : Prop := Float.round x == x.

(** *** DetermineTargetPercent *)

Module PercentNotions.
Import PortfolioModel.

(** The summand of [count] for one insight. *)
Definition nonflat (x : Insight.t) : Z :=
  Py.int_of_bool (bool_decide (Insight.Direction x ≠ Flat)).

(** The value that the loop stores under an insight. *)
Definition weight (P : Q) (x : Insight.t) : Q :=
  Float.mul (Float.of_int (direction_value (Insight.Direction x))) P.

(** The percents of the insights of a list, in the order of the list:
    [[percents[insight] for insight in lastActiveInsights]]. *)
Definition assigned (l : list Insight.t) : option (list Q) :=
  mapM (λ insight, DetermineTargetPercent l !! insight) l.

End PercentNotions.

(** *** CreateTargets *)

Module TargetNotions.
Import PortfolioModel.

Section Notions.
Context `{Host}.

(** The result of [PortfolioTarget.Percent] for one insight. *)
Definition target_of (algorithm : Algorithm) (percents : gmap Insight.t Q)
    (insight : Insight.t) : option PortfolioTarget.t :=
  p ← percents !! insight; Percent algorithm (Insight.Symbol insight) p.

(** The targets that the loop appends: the results that are not null, in
    the order of the insights. *)
Definition percent_targets (algorithm : Algorithm) (percents : gmap Insight.t Q)
    (l : list Insight.t) : list PortfolioTarget.t :=
  omap (target_of algorithm percents) l.

(** The symbols that the loop stores in [errorSymbols]: those of the
    insights whose result is null. *)
Definition error_symbols (algorithm : Algorithm) (percents : gmap Insight.t Q)
    (l : list Insight.t) (errorSymbols : gmap Symbol.t Symbol.t)
  : gmap Symbol.t Symbol.t :=
  fold_left
    (λ errs insight,
       match target_of algorithm percents insight with
       | Some _ => errs
       | None => <[Insight.Symbol insight := Insight.Symbol insight]> errs
       end)
    l errorSymbols.

(** The condition of the early return. *)
Definition nothing_to_do (self : PortfolioModel.t) (algorithm : Algorithm)
    (insights : list Insight.t) : bool :=
  (length insights =? 0)%nat
  && (UtcTime algorithm <=? nextExpiryTime self)
  && bool_decide (removedSymbols self = None).

(** C3, as the spec words it: the result of [PortfolioTarget.Percent] is
    handed on for every insight as the engine returned it, null or not, and
    nothing else happens. *)
Definition percent_stage_as_claimed (algorithm : Algorithm)
    (percents : gmap Insight.t Q) (lastActiveInsights : list Insight.t)
  : list (option PortfolioTarget.t) :=
  map (target_of algorithm percents) lastActiveInsights.

End Notions.
End TargetNotions.

(** ** Sample data *)

Module Samples.

Definition AAA : Symbol.t := Symbol.mk "AAA".
Definition BBB : Symbol.t := Symbol.mk "BBB".
Definition CCC : Symbol.t := Symbol.mk "CCC".

(** Three insights generated at time 10 that close at time 100. *)
Definition up_AAA : Insight.t := Insight.mk 1 AAA Up 10 100.
Definition down_BBB : Insight.t := Insight.mk 2 BBB Down 10 100.
Definition flat_CCC : Insight.t := Insight.mk 3 CCC Flat 10 100.

(** Ten insights [Up], for ten symbols. *)
Definition ten_up : list Insight.t :=
  map (λ k, Insight.mk k (Symbol.mk (pretty (Npos k))) Up 10 100)
      [1; 2; 3; 4; 5; 6; 7; 8; 9; 10]%positive.

End Samples.

(** *** A run of the portfolio construction model *)

Module PortfolioSamples.
Import PortfolioModel Samples.

(** Time 50; nothing is invested; [AAA] has no price, every other
    security costs 10; the portfolio is worth 100000. *)
Definition algorithm : ListHost.algorithm :=
  {| ListHost.utcTime := 50;
     ListHost.holdings := λ _, SecurityHolding.mk false false false;
     ListHost.price := λ symbol, if decide (symbol = AAA) then 0%Q else 10%Q;
     ListHost.totalPortfolioValue := 100000%Q |}.

(** The model as the constructor leaves it for [rebalancingParam = False]. *)
Definition fresh : PortfolioModel.t :=
  {| insightCollection := [];
     removedSymbols := Some [];
     nextExpiryTime := UTCMIN;
     rebalancingTime := UTCMIN;
     rebalancing := 0;
     rebalancingFunc := None |}.

(** The model as the constructor leaves it for a negative number of days,
    [rebalancingParam = -1]: [rebalancing] is true and there is no
    [rebalancingFunc]. *)
Definition negative_days : PortfolioModel.t :=
  {| insightCollection := [];
     removedSymbols := Some [];
     nextExpiryTime := UTCMIN;
     rebalancingTime := UTCMIN;
     rebalancing := -1;
     rebalancingFunc := None |}.

(** The model as the constructor leaves it for [rebalancingParam = 7]: a
    rebalancing every week. *)
Definition weekly : PortfolioModel.t :=
  {| insightCollection := [];
     removedSymbols := Some [];
     nextExpiryTime := UTCMIN;
     rebalancingTime := UTCMIN;
     rebalancing := 1;
     rebalancingFunc := Some (λ dt, datetime_add dt 604800000000) |}.

(** The model as the constructor leaves it for [rebalancingParam = 4000000]:
    the next rebalancing would be more than 10950 years after the first. *)
Definition too_long : PortfolioModel.t :=
  {| insightCollection := [];
     removedSymbols := Some [];
     nextExpiryTime := UTCMIN;
     rebalancingTime := UTCMIN;
     rebalancing := 1;
     rebalancingFunc := Some (λ dt, datetime_add dt 345600000000000000) |}.

(** The fresh model after a call that had no insights. *)
Definition idle : PortfolioModel.t :=
  {| insightCollection := [];
     removedSymbols := None;
     nextExpiryTime := UTCMIN;
     rebalancingTime := UTCMIN;
     rebalancing := 0;
     rebalancingFunc := None |}.

(** A model that waits for its only insight to expire at time 100. *)
Definition waiting : PortfolioModel.t :=
  {| insightCollection := [down_BBB];
     removedSymbols := None;
     nextExpiryTime := 100;
     rebalancingTime := UTCMIN;
     rebalancing := 0;
     rebalancingFunc := None |}.

(** [AAA] and [BBB] leave the universe. *)
Definition changes : SecurityChanges.t :=
  {| SecurityChanges.AddedSecurities := [];
     SecurityChanges.RemovedSecurities := [Security.mk AAA; Security.mk BBB] |}.

End PortfolioSamples.

(** *** A run of the universe selection model *)

Module UniverseSamples.
Import Samples.

Definition DDD : Symbol.t := Symbol.mk "DDD".
Definition EEE : Symbol.t := Symbol.mk "EEE".

(** A trading day of 2015. *)
Definition algorithm : QCAlgorithm.t := QCAlgorithm.mk 2015.

(** [AAA] passes; [BBB] is too cheap; [CCC] has no fundamental data. *)
Definition coarse : list CoarseFundamental.t :=
  [ CoarseFundamental.mk AAA true 10;
    CoarseFundamental.mk BBB true 3;
    CoarseFundamental.mk CCC false 50 ].

(** [AAA], [BBB] and [EEE] are small caps with earnings; [CCC] is too
    large; [DDD] has a negative P/E ratio. *)
Definition fine : list FineFundamental.t :=
  [ FineFundamental.mk AAA 500000000 4;
    FineFundamental.mk BBB 1000000000 12;
    FineFundamental.mk CCC 5000000000 3;
    FineFundamental.mk DDD 400000000 (-2);
    FineFundamental.mk EEE 1500000000 8 ].

(** No small cap at all. *)
Definition large_caps : list FineFundamental.t :=
  [ FineFundamental.mk CCC 5000000000 3 ].

End UniverseSamples.

(* ================================================================== *)
(** * Part II: properties *)
(* ================================================================== *)

(** ** binary64 rounding *)

Module FloatFacts.

(** *** Rounding to the nearest integer *)

(** An integer quotient is its own rounding. *)
Lemma rne_exact m d : 0 < d -> Float.rne (m * d) d = m.
Proof.
  intros Hd. unfold Float.rne.
  rewrite Z.div_mul by lia. rewrite Z.mod_mul by lia.
  destruct (Z.compare_spec (2 * 0) d); lia.
Qed.

(** The rounding is within one half of the quotient. *)
Lemma rne_bound n d : 0 < d -> 2 * Z.abs (Float.rne n d * d - n) <= d.
Proof.
  intros Hd. unfold Float.rne.
  pose proof (Z.div_mod n d ltac:(lia)) as E.
  pose proof (Z.mod_pos_bound n d Hd) as B.
  destruct (Z.compare_spec (2 * (n mod d)) d); [destruct (Z.even (n / d))| |]; nia.
Qed.

(** The rounding depends on the quotient only, not on the fraction that
    stands for it. *)
Lemma rne_ratio n d n' d' :
  0 < d -> 0 < d' -> n * d' = n' * d -> Float.rne n d = Float.rne n' d'.
Proof.
  intros Hd Hd' E. unfold Float.rne.
  pose proof (Z.div_mod n d ltac:(lia)) as E1.
  pose proof (Z.mod_pos_bound n d Hd) as B1.
  pose proof (Z.div_mod n' d' ltac:(lia)) as E2.
  pose proof (Z.mod_pos_bound n' d' Hd') as B2.
  set (q := n / d) in *. set (r := n mod d) in *.
  set (q' := n' / d') in *. set (r' := n' mod d') in *.
  clearbody q r q' r'.
  assert (Hdd : 0 < d * d') by nia.
  assert (Hk : d * d' * (q - q') = r' * d - r * d') by nia.
  assert (Hq : q = q').
  { destruct (Z.lt_trichotomy q q') as [L|[L|L]]; [exfalso|exact L|exfalso].
    - assert (d * d' * (q - q') <= - (d * d')) by nia. nia.
    - assert (d * d' <= d * d' * (q - q')) by nia. nia. }
  subst q'. replace (q - q) with 0 in Hk by lia.
  assert (Hr : r * d' = r' * d) by nia.
  assert (Hc : (2 * r ?= d) = (2 * r' ?= d')).
  { destruct (Z.compare_spec (2 * r) d), (Z.compare_spec (2 * r') d'); try reflexivity; exfalso; nia. }
  rewrite Hc. reflexivity.
Qed.

Lemma pow2_pos k : 0 < 2 ^ Z.max k 0.
Proof. apply Z.pow_pos_nonneg; lia. Qed.

(** *** The exponent *)

(** Raising the shift from [s] to [s'] multiplies by [2 ^ (s' - s)]. *)
Lemma scale_shift a b s s' :
  s <= s' ->
  fst (Float.scale a b s') * snd (Float.scale a b s) =
  2 ^ (s' - s) * (fst (Float.scale a b s) * snd (Float.scale a b s')).
Proof.
  intros Hs. unfold Float.scale; simpl.
  assert (P : 2 ^ Z.max s' 0 * 2 ^ Z.max (- s) 0 =
              2 ^ (s' - s) * (2 ^ Z.max s 0 * 2 ^ Z.max (- s') 0)).
  { rewrite <- !Z.pow_add_r by lia. f_equal. lia. }
  transitivity (a * b * (2 ^ Z.max s' 0 * 2 ^ Z.max (- s) 0)); [ring|].
  rewrite P. ring.
Qed.

Lemma scale_pos a b s : 0 < a -> 0 < b -> 0 < fst (Float.scale a b s) /\ 0 < snd (Float.scale a b s).
Proof.
  intros Ha Hb. unfold Float.scale; simpl.
  pose proof (pow2_pos s). pose proof (pow2_pos (- s)). nia.
Qed.

(** A positive rational lies in one binade only. *)
Lemma in_binade_unique a b s s' :
  0 < a -> 0 < b -> Float.in_binade a b s -> Float.in_binade a b s' -> s = s'.
Proof.
  assert (W : forall s s', 0 < a -> 0 < b -> Float.in_binade a b s -> Float.in_binade a b s' -> s < s' -> False).
  { clear s s'. intros s s' Ha Hb [L1 U1] [L2 U2] Hlt.
    pose proof (scale_shift a b s s' ltac:(lia)) as E.
    destruct (scale_pos a b s Ha Hb) as [Pn Pd].
    destruct (scale_pos a b s' Ha Hb) as [Pn' Pd'].
    assert (2 <= 2 ^ (s' - s)).
    { change 2 with (2 ^ 1) at 1. apply Z.pow_le_mono_r; lia. }
    set (n := fst (Float.scale a b s)) in *. set (d := snd (Float.scale a b s)) in *.
    set (n' := fst (Float.scale a b s')) in *. set (d' := snd (Float.scale a b s')) in *.
    set (k := 2 ^ (s' - s)) in *.
    assert (2 ^ 53 * (d * d') <= n' * d).
    { rewrite E. change (2 ^ 53) with (2 * 2 ^ 52).
      assert (2 ^ 52 * d * d' <= n * d') by nia. nia. }
    assert (n' * d < 2 ^ 53 * d' * d) by nia. nia. }
  intros Ha Hb H1 H2.
  destruct (Z.lt_trichotomy s s') as [L|[L|L]]; [exfalso; eauto|exact L|exfalso; eauto].
Qed.

(** The binade depends on the quotient only. *)
Lemma in_binade_ratio a b a' b' s :
  0 < a -> 0 < b -> 0 < a' -> 0 < b' -> a * b' = a' * b ->
  Float.in_binade a b s -> Float.in_binade a' b' s.
Proof.
  intros Ha Hb Ha' Hb' E. unfold Float.in_binade, Float.scale; simpl.
  pose proof (pow2_pos s). pose proof (pow2_pos (- s)).
  set (P := 2 ^ Z.max s 0) in *. set (M := 2 ^ Z.max (- s) 0) in *.
  intros [L U]. split.
  - assert (2 ^ 52 * (b' * M) * b <= a' * P * b).
    { replace (a' * P * b) with (a * P * b') by nia. nia. }
    nia.
  - assert (a' * P * b < 2 ^ 53 * (b' * M) * b).
    { replace (a' * P * b) with (a * P * b') by nia. nia. }
    nia.
Qed.

(** [exponent] finds the binade. *)
Lemma exponent_spec a b : 0 < a -> 0 < b -> Float.in_binade a b (Float.exponent a b).
Proof.
  intros Ha Hb. unfold Float.exponent.
  set (s0 := 52 - Z.log2 a + Z.log2 b).
  destruct (Z.log2_spec a Ha) as [La Ua]. destruct (Z.log2_spec b Hb) as [Lb Ub].
  pose proof (Z.log2_nonneg a). pose proof (Z.log2_nonneg b).
  assert (U0 : fst (Float.scale a b s0) < 2 ^ 53 * snd (Float.scale a b s0)).
  { unfold Float.scale; simpl.
    pose proof (pow2_pos s0). pose proof (pow2_pos (- s0)).
    assert (E : 2 ^ Z.succ (Z.log2 a) * 2 ^ Z.max s0 0 = 2 ^ 53 * (2 ^ Z.log2 b * 2 ^ Z.max (- s0) 0)).
    { rewrite <- !Z.pow_add_r by lia. f_equal. lia. }
    nia. }
  assert (L0 : 2 ^ 51 * snd (Float.scale a b s0) < fst (Float.scale a b s0)).
  { unfold Float.scale; simpl.
    pose proof (pow2_pos s0). pose proof (pow2_pos (- s0)).
    assert (E : 2 ^ Z.log2 a * 2 ^ Z.max s0 0 = 2 ^ 51 * (2 ^ Z.succ (Z.log2 b) * 2 ^ Z.max (- s0) 0)).
    { rewrite <- !Z.pow_add_r by lia. f_equal. lia. }
    nia. }
  destruct (Float.scale a b s0) as [n0 d0] eqn:Es. cbn [fst snd] in U0, L0.
  destruct (Z.ltb_spec n0 (2 ^ 52 * d0)) as [Hlt|Hge].
  - pose proof (scale_shift a b s0 (s0 + 1) ltac:(lia)) as E.
    rewrite Es in E. cbn [fst snd] in E.
    replace (s0 + 1 - s0) with 1 in E by lia. change (2 ^ 1) with 2 in E.
    destruct (scale_pos a b s0 Ha Hb) as [Pn Pd]. rewrite Es in Pn, Pd; cbn [fst snd] in Pn, Pd.
    destruct (scale_pos a b (s0 + 1) Ha Hb) as [Pn' Pd'].
    unfold Float.in_binade.
    set (n1 := fst (Float.scale a b (s0 + 1))) in *. set (d1 := snd (Float.scale a b (s0 + 1))) in *.
    split.
    + assert (2 ^ 52 * d1 * d0 <= n1 * d0).
      { rewrite E. change (2 ^ 52) with (2 * 2 ^ 51). nia. }
      nia.
    + assert (n1 * d0 < 2 ^ 53 * d1 * d0).
      { rewrite E. change (2 ^ 53) with (2 * 2 ^ 52). nia. }
      nia.
  - unfold Float.in_binade. rewrite Es. simpl. lia.
Qed.

Lemma exponent_ratio a b a' b' :
  0 < a -> 0 < b -> 0 < a' -> 0 < b' -> a * b' = a' * b ->
  Float.exponent a b = Float.exponent a' b'.
Proof.
  intros Ha Hb Ha' Hb' E.
  apply (in_binade_unique a' b'); try assumption.
  - apply (in_binade_ratio a b); try assumption. now apply exponent_spec.
  - now apply exponent_spec.
Qed.

(** *** Rounding *)

(** Fractions of equal value have the same rounding. *)
Lemma round_pos_ratio a b a' b' :
  0 < a -> 0 < b -> 0 < a' -> 0 < b' -> a * b' = a' * b ->
  Float.round_pos a b = Float.round_pos a' b'.
Proof.
  intros Ha Hb Ha' Hb' E. unfold Float.round_pos.
  rewrite <- (exponent_ratio a b a' b') by assumption.
  set (s := Float.exponent a b). unfold Float.scale.
  rewrite (rne_ratio (a * 2 ^ Z.max s 0) (b * 2 ^ Z.max (- s) 0)
                     (a' * 2 ^ Z.max s 0) (b' * 2 ^ Z.max (- s) 0)).
  - reflexivity.
  - pose proof (pow2_pos (- s)). nia.
  - pose proof (pow2_pos (- s)). nia.
  - nia.
Qed.


(** The significand has 53 bits (or is [2 ^ 53], the first number of the
    next binade). *)
Lemma rne_range n d :
  0 < d -> 2 ^ 52 * d <= n < 2 ^ 53 * d -> 2 ^ 52 <= Float.rne n d <= 2 ^ 53.
Proof.
  intros Hd [L U]. unfold Float.rne.
  assert (Hq : 2 ^ 52 <= n / d < 2 ^ 53).
  { split.
    - apply Z.div_le_lower_bound; lia.
    - apply Z.div_lt_upper_bound; lia. }
  destruct (2 * (n mod d) ?= d); [destruct (Z.even (n / d))| |]; lia.
Qed.

Lemma round_pos_eq a b :
  Float.round_pos a b =
  (Float.rne (fst (Float.scale a b (Float.exponent a b))) (snd (Float.scale a b (Float.exponent a b)))
   * 2 ^ Z.max (- Float.exponent a b) 0) # Z.to_pos (2 ^ Z.max (Float.exponent a b) 0).
Proof. reflexivity. Qed.

(** A number with a 53-bit significand is its own rounding. *)
Lemma round_pos_exact a b m t :
  0 < a -> 0 < b -> 2 ^ 52 <= m < 2 ^ 53 ->
  a * 2 ^ Z.max t 0 = m * (b * 2 ^ Z.max (- t) 0) ->
  Float.round_pos a b == a # Z.to_pos b.
Proof.
  intros Ha Hb Hm E.
  pose proof (pow2_pos t) as Pt. pose proof (pow2_pos (- t)) as Mt.
  assert (Hs : Float.exponent a b = t).
  { apply (in_binade_unique a b); try assumption.
    - now apply exponent_spec.
    - unfold Float.in_binade, Float.scale; cbn [fst snd]. rewrite E. nia. }
  rewrite round_pos_eq, Hs. unfold Float.scale; cbn [fst snd].
  rewrite E, rne_exact by nia.
  unfold Qeq; cbn [Qnum Qden]. rewrite !Z2Pos.id by lia. nia.
Qed.

(** Rounding twice is rounding once. *)
Lemma round_pos_idem a b :
  0 < a -> 0 < b ->
  Float.round_pos (Qnum (Float.round_pos a b)) (Zpos (Qden (Float.round_pos a b))) == Float.round_pos a b.
Proof.
  intros Ha Hb. rewrite (round_pos_eq a b). cbn [Qnum Qden].
  set (s := Float.exponent a b).
  pose proof (exponent_spec a b Ha Hb) as B. fold s in B. unfold Float.in_binade in B.
  destruct (scale_pos a b s Ha Hb) as [Pn Pd].
  pose proof (rne_range _ _ Pd B) as R.
  set (r := Float.rne (fst (Float.scale a b s)) (snd (Float.scale a b s))) in *.
  pose proof (pow2_pos s) as Ps. pose proof (pow2_pos (- s)) as Ms.
  rewrite Z2Pos.id by lia.
  assert (Hr : r < 2 ^ 53 \/ r = 2 ^ 53) by lia.
  destruct Hr as [Hr|Hr].
  - rewrite (round_pos_exact _ _ r s); try nia. reflexivity.
  - rewrite (round_pos_exact _ _ (2 ^ 52) (s - 1)); try nia; try reflexivity.
    rewrite Hr.
    assert (P : 2 ^ 53 * 2 ^ Z.max (- s) 0 * 2 ^ Z.max (s - 1) 0 =
                2 ^ 52 * (2 ^ Z.max s 0 * 2 ^ Z.max (- (s - 1)) 0)).
    { rewrite <- !Z.pow_add_r by lia. f_equal. lia. }
    exact P.
Qed.

Lemma round_pos_positive a b : 0 < a -> 0 < b -> (0 < Float.round_pos a b)%Q.
Proof.
  intros Ha Hb. rewrite round_pos_eq.
  set (s := Float.exponent a b).
  pose proof (exponent_spec a b Ha Hb) as B. fold s in B. unfold Float.in_binade in B.
  destruct (scale_pos a b s Ha Hb) as [Pn Pd].
  pose proof (rne_range _ _ Pd B) as R.
  pose proof (pow2_pos (- s)) as Ms.
  unfold Qlt; cbn [Qnum Qden]. nia.
Qed.

(** The relative error of one rounding is at most 2^-53. *)
Lemma round_pos_error a b :
  0 < a -> 0 < b ->
  (Qabs (Float.round_pos a b - (a # Z.to_pos b)) <= (a # Z.to_pos b) * (1 # Z.to_pos (2 ^ 53)))%Q.
Proof.
  intros Ha Hb. rewrite round_pos_eq.
  set (s := Float.exponent a b).
  pose proof (exponent_spec a b Ha Hb) as B. fold s in B. unfold Float.in_binade in B.
  destruct (scale_pos a b s Ha Hb) as [Pn Pd].
  pose proof (rne_bound (fst (Float.scale a b s)) _ Pd) as E.
  set (r := Float.rne (fst (Float.scale a b s)) (snd (Float.scale a b s))) in *.
  unfold Float.scale in *; cbn [fst snd] in *.
  pose proof (pow2_pos s) as Ps. pose proof (pow2_pos (- s)) as Ms.
  set (P := 2 ^ Z.max s 0) in *. set (M := 2 ^ Z.max (- s) 0) in *.
  unfold Qle, Qabs, Qminus, Qplus, Qopp, Qmult; cbn [Qnum Qden].
  rewrite !Pos2Z.inj_mul, !Z2Pos.id by lia.
  change (Z.pos (Z.to_pos (2 ^ 53))) with (2 ^ 53).
  replace (r * M * b + - a * P) with (r * (b * M) - a * P) by ring.
  assert (Z.abs (r * (b * M) - a * P) * 2 ^ 53 <= a * P).
  { change (2 ^ 53) with (2 * 2 ^ 52). nia. }
  nia.
Qed.

Lemma round_proper x y : x == y -> Float.round x = Float.round y.
Proof.
  unfold Qeq, Float.round. destruct x as [a b], y as [a' b']; cbn [Qnum Qden].
  intros E. destruct a, a'; try lia; try reflexivity.
  - apply round_pos_ratio; lia.
  - f_equal. apply round_pos_ratio; lia.
Qed.

#[global] Instance round_Proper : Proper (Qeq ==> Qeq) Float.round.
Proof. intros x y E. now rewrite (round_proper x y E). Qed.

Lemma round_opp x : Float.round (- x) == - Float.round x.
Proof.
  unfold Float.round. destruct x as [[|a|a] b]; cbn [Qnum Qden Qopp Z.opp]; try reflexivity.
  now rewrite Qopp_involutive.
Qed.

Lemma round_idem x : Float.round (Float.round x) == Float.round x.
Proof.
  unfold Float.round at 2 3. destruct x as [[|a|a] b]; cbn [Qnum Qden].
  - reflexivity.
  - pose proof (round_pos_positive (Zpos a) (Zpos b) eq_refl eq_refl) as P.
    pose proof (round_pos_idem (Zpos a) (Zpos b) eq_refl eq_refl) as I.
    unfold Float.round. unfold Qlt in P. cbn [Qnum Qden] in P.
    destruct (Qnum (Float.round_pos (Z.pos a) (Z.pos b))); try lia. exact I.
  - pose proof (round_pos_positive (Zpos a) (Zpos b) eq_refl eq_refl) as P.
    pose proof (round_pos_idem (Zpos a) (Zpos b) eq_refl eq_refl) as I.
    rewrite round_opp. apply Qopp_comp.
    unfold Float.round. unfold Qlt in P. cbn [Qnum Qden] in P.
    destruct (Qnum (Float.round_pos (Z.pos a) (Z.pos b))); try lia. exact I.
Qed.

Lemma round_positive x : (0 < x)%Q -> (0 < Float.round x)%Q.
Proof.
  unfold Qlt, Float.round. destruct x as [[|a|a] b]; cbn [Qnum Qden]; try lia.
  intros _. apply (round_pos_positive (Zpos a) (Zpos b)); reflexivity.
Qed.

Lemma round_error x : (0 < x)%Q -> (Qabs (Float.round x - x) <= x * (1 # Z.to_pos (2 ^ 53)))%Q.
Proof.
  unfold Qlt at 1, Float.round. destruct x as [[|a|a] b]; cbn [Qnum Qden]; try lia.
  intros _. apply (round_pos_error (Zpos a) (Zpos b)); reflexivity.
Qed.

(** An [int] below [2 ^ 53] converts to [float] without error. *)
Lemma of_int_exact n : 0 < n < 2 ^ 53 -> Float.of_int n == inject_Z n.
Proof.
  intros [Hn Un]. unfold Float.of_int, Float.round, inject_Z; cbn [Qnum Qden].
  destruct n as [|p|p]; try lia.
  destruct (Z.log2_spec (Zpos p) eq_refl) as [L U].
  pose proof (Z.log2_nonneg (Zpos p)).
  assert (Z.log2 (Zpos p) < 53).
  { apply Z.log2_lt_pow2; lia. }
  apply (round_pos_exact (Zpos p) 1 (Zpos p * 2 ^ (52 - Z.log2 (Zpos p))) (52 - Z.log2 (Zpos p))); try lia.
  - split.
    + replace (2 ^ 52) with (2 ^ Z.log2 (Zpos p) * 2 ^ (52 - Z.log2 (Zpos p))).
      * apply Z.mul_le_mono_nonneg_r; [apply Z.pow_nonneg|]; lia.
      * rewrite <- Z.pow_add_r by lia. f_equal. lia.
    + replace (2 ^ 53) with (2 ^ Z.succ (Z.log2 (Zpos p)) * 2 ^ (52 - Z.log2 (Zpos p))).
      * apply Z.mul_lt_mono_pos_r; [apply Z.pow_pos_nonneg|]; lia.
      * rewrite <- Z.pow_add_r by lia. f_equal. lia.
  - rewrite !Z.max_l by lia. rewrite Z.max_r by lia. change (2 ^ 0) with 1. lia.
Qed.

(** The quotient [1.0 / n] for a count [n] of insights. *)
Lemma inv_positive n : 0 < n -> (0 < Float.div 1 (Float.of_int n))%Q.
Proof.
  intros Hn. unfold Float.div. apply round_positive.
  assert (P : (0 < Float.of_int n)%Q).
  { unfold Float.of_int. apply round_positive.
    unfold Qlt, inject_Z; cbn [Qnum Qden]. lia. }
  apply Qlt_shift_div_l; [exact P|]. rewrite Qmult_0_l. reflexivity.
Qed.

Lemma inject_Z_pos n : 0 < n -> (0 < inject_Z n)%Q.
Proof. intros Hn. unfold Qlt, inject_Z; cbn [Qnum Qden]. lia. Qed.

Lemma inv_error n :
  0 < n < 2 ^ 53 ->
  (Qabs (Float.div 1 (Float.of_int n) - 1 / inject_Z n)
   <= (1 / inject_Z n) * (1 # Z.to_pos (2 ^ 53)))%Q.
Proof.
  intros Hn. unfold Float.div.
  rewrite (round_proper (1 / Float.of_int n) (1 / inject_Z n)).
  - apply round_error. apply Qlt_shift_div_l; [apply inject_Z_pos; lia|].
    rewrite Qmult_0_l. reflexivity.
  - rewrite (of_int_exact n Hn). reflexivity.
Qed.

(** [n] copies of the quotient [1.0 / n] add up to [1] within [2 ^ -53]. *)
Lemma inv_sum_error n :
  0 < n < 2 ^ 53 ->
  (Qabs (inject_Z n * Float.div 1 (Float.of_int n) - 1) <= 1 # Z.to_pos (2 ^ 53))%Q.
Proof.
  intros Hn. pose proof (inv_error n Hn) as E.
  pose proof (inject_Z_pos n ltac:(lia)) as P.
  set (f := Float.div 1 (Float.of_int n)) in *.
  assert (Hne : ~ inject_Z n == 0) by (intros Z0; rewrite Z0 in P; discriminate).
  assert (E1 : inject_Z n * f - 1 == inject_Z n * (f - 1 / inject_Z n)) by (field; exact Hne).
  rewrite E1, Qabs_Qmult, (Qabs_pos (inject_Z n)) by (apply Qlt_le_weak; exact P).
  apply (Qmult_le_l _ _ (inject_Z n) P) in E.
  eapply Qle_trans; [exact E|].
  apply Qle_lteq. right. field. exact Hne.
Qed.

(** A power of two has an exact reciprocal. *)
Lemma inv_pow2 k :
  0 <= k < 53 -> Float.div 1 (Float.of_int (2 ^ k)) == 1 / inject_Z (2 ^ k).
Proof.
  intros Hk.
  assert (P : 0 < 2 ^ k) by (apply Z.pow_pos_nonneg; lia).
  assert (U : 2 ^ k < 2 ^ 53) by (apply Z.pow_lt_mono_r; lia).
  unfold Float.div.
  rewrite (round_proper (1 / Float.of_int (2 ^ k)) (1 # Z.to_pos (2 ^ k))).
  - unfold Float.round; cbn [Qnum Qden].
    rewrite (round_pos_exact 1 (Zpos (Z.to_pos (2 ^ k))) (2 ^ 52) (52 + k)); try lia.
    + rewrite Z2Pos.id by lia. unfold Qdiv, Qinv, inject_Z; cbn [Qnum Qden].
      destruct (2 ^ k) eqn:E; try lia. cbn. reflexivity.
    + rewrite Z2Pos.id by lia. rewrite Z.max_l, Z.max_r by lia.
      change (2 ^ 0) with 1. rewrite Z.pow_add_r by lia. ring.
  - rewrite (of_int_exact (2 ^ k)) by lia.
    unfold Qeq, Qdiv, Qinv, inject_Z; cbn [Qnum Qden].
    destruct (2 ^ k) eqn:E; try lia. cbn. lia.
Qed.

Lemma representable_round x : representable (Float.round x).
Proof. apply round_idem. Qed.

Lemma representable_0 : representable 0.
Proof. reflexivity. Qed.

(** Multiplying a float by the value of a direction is exact. *)
Lemma mul_direction d f :
  representable f ->
  Float.mul (Float.of_int (direction_value d)) f == inject_Z (direction_value d) * f.
Proof.
  unfold representable. intros R. unfold Float.mul. destruct d; cbn [direction_value].
  - rewrite (round_proper (Float.of_int (-1) * f) (- f)).
    + rewrite round_opp, R. ring.
    + change (Float.of_int (-1)) with (- (2 ^ 52 # Z.to_pos (2 ^ 52)))%Q.
      assert (E : 2 ^ 52 # Z.to_pos (2 ^ 52) == 1) by reflexivity.
      rewrite E. ring.
  - rewrite (round_proper (Float.of_int 0 * f) 0).
    + rewrite Qmult_0_l. reflexivity.
    + change (Float.of_int 0) with 0%Q. ring.
  - rewrite (round_proper (Float.of_int 1 * f) f).
    + rewrite R. ring.
    + change (Float.of_int 1) with (2 ^ 52 # Z.to_pos (2 ^ 52))%Q.
      assert (E : 2 ^ 52 # Z.to_pos (2 ^ 52) == 1) by reflexivity.
      rewrite E. ring.
Qed.

End FloatFacts.

(** ** The library functions on small inputs *)

Module LibraryRuns.

(** [1.0 / 3] is [0x1.5555555555555p-2], and [1.0 / 10] is
    [0x1.999999999999ap-4], a little more than one tenth. *)
Example div_1_3 : Float.div 1 (Float.of_int 3) == 6004799503160661 # 18014398509481984.
Proof. vm_compute. reflexivity. Qed.

Example div_1_10 : Float.div 1 (Float.of_int 10) == 3602879701896397 # 36028797018963968.
Proof. vm_compute. reflexivity. Qed.

(** [float(2 ** 53 + 1)] is [2 ** 53]: a tie goes to the even significand. *)
Example of_int_tie : Float.of_int (2 ^ 53 + 1) == inject_Z (2 ^ 53).
Proof. vm_compute. reflexivity. Qed.

(** [0.1 + 0.2] is not [0.3]. *)
Example add_tenths :
  ¬ Float.add (Float.div 1 (Float.of_int 10)) (Float.div 2 (Float.of_int 10))
    == Float.div 3 (Float.of_int 10).
Proof. vm_compute. discriminate. Qed.

(** [groupby] splits into runs, not into classes. *)
Example groupby_runs :
  Py.groupby (λ x, x mod 2) [1; 3; 2; 4; 5; 1]
  = [(1, [1; 3]); (0, [2; 4]); (1, [5; 1])].
Proof. reflexivity. Qed.

(** [sorted] keeps the order of elements with equal keys, so the last
    element is the latest of those with the largest key. *)
Example sorted_stable :
  Py.sorted fst [(2, "a"); (1, "b"); (2, "c"); (1, "d")]
  = [(1, "b"); (1, "d"); (2, "a"); (2, "c")].
Proof. reflexivity. Qed.

Example str_int_run : Py.str_int 2015 = "2015".
Proof. reflexivity. Qed.

(** The first percentile of [4, 12, 8] is [4 + 0.02 * (8 - 4)]. *)
Example percentile_run :
  Qred <$> LinearPercentile.percentile [4; 12; 8]%Q 1 = Some (102 # 25).
Proof. vm_compute. reflexivity. Qed.

End LibraryRuns.

(** ** DetermineTargetPercent *)

Module DetermineTargetPercentFacts.
Import FloatFacts PortfolioModel PercentNotions.

Lemma sum_from (l : list Z) (acc : Z) : fold_left Z.add l acc = acc + Py.sum l.
Proof.
  unfold Py.sum. revert acc. induction l as [|z l IH]; intros acc; cbn [fold_left].
  - lia.
  - rewrite (IH (acc + z)), (IH (0 + z)). lia.
Qed.

Lemma count_nil : count [] = 0.
Proof. reflexivity. Qed.

Lemma count_cons x l : count (x :: l) = nonflat x + count l.
Proof.
  unfold count, Py.sum. cbn [map fold_left]. rewrite sum_from. reflexivity.
Qed.

Lemma nonflat_range x : 0 <= nonflat x <= 1.
Proof. unfold nonflat. destruct (bool_decide _); cbn; lia. Qed.

Lemma count_nonneg l : 0 <= count l.
Proof.
  induction l as [|x l IH]; [rewrite count_nil; lia|].
  rewrite count_cons. pose proof (nonflat_range x). lia.
Qed.

(** [count] counts: it is the length of the sublist of the insights that
    are not flat. *)
Lemma count_length l :
  count l = Z.of_nat (length (filter (λ x, Insight.Direction x ≠ Flat) l)).
Proof.
  induction l as [|x l IH]; [reflexivity|].
  rewrite count_cons, IH, filter_cons. unfold nonflat.
  destruct (decide (Insight.Direction x ≠ Flat)) as [Hd|Hd].
  - rewrite bool_decide_true by exact Hd. cbn [Py.int_of_bool length]. lia.
  - rewrite bool_decide_false by exact Hd. cbn [Py.int_of_bool]. lia.
Qed.

Lemma count_pos l x : x ∈ l → Insight.Direction x ≠ Flat → 0 < count l.
Proof.
  intros Hin Hd. induction Hin as [x l|x y l Hin IH].
  - rewrite count_cons. unfold nonflat. rewrite bool_decide_true by exact Hd.
    pose proof (count_nonneg l). cbn. lia.
  - rewrite count_cons. pose proof (nonflat_range y). specialize (IH Hd). lia.
Qed.

Lemma percent_representable l : representable (percent l).
Proof.
  unfold percent. destruct (count l =? 0).
  - apply representable_0.
  - apply representable_round.
Qed.

Lemma percent_nonneg l : (0 <= percent l)%Q.
Proof.
  unfold percent. destruct (Z.eqb_spec (count l) 0) as [E|E].
  - apply Qle_refl.
  - apply Qlt_le_weak, inv_positive. pose proof (count_nonneg l). lia.
Qed.

Lemma fill_lookup (P : Q) (l : list Insight.t) (m : gmap Insight.t Q) (x : Insight.t) :
  fold_left (λ result insight, <[insight := weight P insight]> result) l m !! x
  = if decide (x ∈ l) then Some (weight P x) else m !! x.
Proof.
  revert m. induction l as [|y l IH]; intros m; cbn [fold_left].
  - destruct (decide (x ∈ [])) as [Hin|_]; [inversion Hin|reflexivity].
  - rewrite IH. destruct (decide (x ∈ l)) as [Hin|Hnin].
    + rewrite decide_True by (right; exact Hin). reflexivity.
    + destruct (decide (x = y)) as [->|Hne].
      * rewrite decide_True by left. apply lookup_insert_eq.
      * rewrite decide_False by (intros Hc; inversion Hc; subst; tauto).
        apply lookup_insert_ne. congruence.
Qed.

(** Every insight of the list is a key of the result ([percents[insight]]
    does not raise), and its value does not depend on its place in the list. *)
Lemma DetermineTargetPercent_lookup l x :
  x ∈ l → DetermineTargetPercent l !! x = Some (weight (percent l) x).
Proof.
  intros Hin. unfold DetermineTargetPercent.
  rewrite (fill_lookup (percent l) l ∅ x). rewrite decide_True by exact Hin. reflexivity.
Qed.

Lemma DetermineTargetPercent_dom l x :
  x ∉ l → DetermineTargetPercent l !! x = None.
Proof.
  intros Hin. unfold DetermineTargetPercent.
  rewrite (fill_lookup (percent l) l ∅ x). rewrite decide_False by exact Hin.
  apply lookup_empty.
Qed.

Lemma weight_value l x :
  weight (percent l) x == inject_Z (direction_value (Insight.Direction x)) * percent l.
Proof. apply mul_direction, percent_representable. Qed.

Lemma weight_abs l x : Qabs (weight (percent l) x) == inject_Z (nonflat x) * percent l.
Proof.
  rewrite weight_value, Qabs_Qmult, (Qabs_pos (percent l)) by apply percent_nonneg.
  unfold nonflat. destruct (Insight.Direction x); reflexivity.
Qed.

Lemma assigned_eq l : assigned l = Some (map (weight (percent l)) l).
Proof.
  unfold assigned. apply mapM_Some. apply Forall2_fmap_r, Forall_Forall2_diag.
  apply Forall_forall. intros x Hin. now apply DetermineTargetPercent_lookup.
Qed.

Lemma weights_sum (P : Q) (l' : list Insight.t) :
  (∀ x, Qabs (weight P x) == inject_Z (nonflat x) * P) →
  Qsum (map Qabs (map (weight P) l')) == inject_Z (count l') * P.
Proof.
  intros HP. induction l' as [|x l' IH].
  - cbn. ring.
  - cbn [map Qsum foldr]. fold (Qsum (map Qabs (map (weight P) l'))).
    rewrite IH, HP, count_cons, inject_Z_plus. ring.
Qed.

Lemma assigned_sum l :
  Qsum (map Qabs (map (weight (percent l)) l)) == inject_Z (count l) * percent l.
Proof. apply (weights_sum (percent l) l). intros x. apply weight_abs. Qed.

End DetermineTargetPercentFacts.

Module DetermineTargetPercentClaims.
Import FloatFacts PortfolioModel PercentNotions DetermineTargetPercentFacts.

(** C1.  Let [lastActiveInsights] hold [N] insights whose direction is not
    [Flat], and let [x] be one of them.  Then [x] is a key of the result of
    [DetermineTargetPercent]; the absolute value of its percent is the float
    [1.0 / N]; the percent is positive for [Up] and negative for [Down].
    The float [1.0 / N] is the rational [1 / N] up to one rounding: the
    relative error is at most [2 ^ -53]. *)
Theorem DetermineTargetPercent_equal_weight
    (lastActiveInsights : list Insight.t) (x : Insight.t) (N : Z) :
  N = Z.of_nat (length (filter (λ i, Insight.Direction i ≠ Flat) lastActiveInsights)) →
  x ∈ lastActiveInsights →
  Insight.Direction x ≠ Flat →
  ∃ p : Q,
    DetermineTargetPercent lastActiveInsights !! x = Some p
    ∧ 0 < N
    ∧ Qabs p == Float.div 1 (Float.of_int N)
    ∧ (Insight.Direction x = Up → (0 < p)%Q)
    ∧ (Insight.Direction x = Down → (p < 0)%Q)
    ∧ (N < 2 ^ 53 →
       (Qabs (Qabs p - 1 / inject_Z N) <= (1 / inject_Z N) * (1 # Z.to_pos (2 ^ 53)))%Q).
Proof.
  intros HN Hin Hd. rewrite <- count_length in HN. subst N.
  pose proof (count_pos _ _ Hin Hd) as Hc.
  exists (weight (percent lastActiveInsights) x).
  assert (HP : percent lastActiveInsights
               = Float.div 1 (Float.of_int (count lastActiveInsights))).
  { unfold percent. destruct (Z.eqb_spec (count lastActiveInsights) 0); [lia|reflexivity]. }
  assert (Habs : Qabs (weight (percent lastActiveInsights) x)
                 == Float.div 1 (Float.of_int (count lastActiveInsights))).
  { rewrite weight_abs, HP. unfold nonflat. rewrite bool_decide_true by exact Hd.
    cbn [Py.int_of_bool]. ring. }
  pose proof (inv_positive _ Hc) as Hpos.
  split; [now apply DetermineTargetPercent_lookup|].
  split; [exact Hc|]. split; [exact Habs|].
  split; [|split].
  - intros Hu. rewrite weight_value, Hu, HP. cbn [direction_value].
    rewrite Qmult_1_l. exact Hpos.
  - intros Hu. rewrite weight_value, Hu, HP. cbn [direction_value].
    assert (E : (inject_Z (-1) * Float.div 1 (Float.of_int (count lastActiveInsights))
                 == - Float.div 1 (Float.of_int (count lastActiveInsights)))%Q) by ring.
    rewrite E. apply (Qopp_lt_compat 0), Hpos.
  - intros HU. rewrite Habs. apply inv_error. lia.
Qed.

(** The theorem at [[up_AAA; down_BBB; flat_CCC]] and [down_BBB], with
    [N = 2]. *)
Lemma DetermineTargetPercent_equal_weight_witness :
  (2 = Z.of_nat (length (filter (λ i, Insight.Direction i ≠ Flat)
                                [Samples.up_AAA; Samples.down_BBB; Samples.flat_CCC]))
   ∧ Samples.down_BBB ∈ [Samples.up_AAA; Samples.down_BBB; Samples.flat_CCC]
   ∧ Insight.Direction Samples.down_BBB ≠ Flat)
  ∧ ∃ p : Q,
      DetermineTargetPercent [Samples.up_AAA; Samples.down_BBB; Samples.flat_CCC]
        !! Samples.down_BBB = Some p
      ∧ 0 < 2
      ∧ Qabs p == Float.div 1 (Float.of_int 2)
      ∧ (Insight.Direction Samples.down_BBB = Up → (0 < p)%Q)
      ∧ (Insight.Direction Samples.down_BBB = Down → (p < 0)%Q)
      ∧ (2 < 2 ^ 53 →
         (Qabs (Qabs p - 1 / inject_Z 2) <= (1 / inject_Z 2) * (1 # Z.to_pos (2 ^ 53)))%Q).
Proof.
  assert (H1 : 2 = Z.of_nat (length (filter (λ i, Insight.Direction i ≠ Flat)
                  [Samples.up_AAA; Samples.down_BBB; Samples.flat_CCC])))
    by reflexivity.
  assert (H2 : Samples.down_BBB ∈ [Samples.up_AAA; Samples.down_BBB; Samples.flat_CCC])
    by (apply list_elem_of_further, list_elem_of_here).
  assert (H3 : Insight.Direction Samples.down_BBB ≠ Flat) by discriminate.
  split; [split; [exact H1|split; [exact H2|exact H3]]|].
  exact (DetermineTargetPercent_equal_weight
           [Samples.up_AAA; Samples.down_BBB; Samples.flat_CCC] Samples.down_BBB 2
           H1 H2 H3).
Defined.

(** The same run, computed: [0.5] for [Up], [-0.5] for [Down], [0] for
    [Flat]. *)
Example DetermineTargetPercent_run :
  map Qred <$> assigned [Samples.up_AAA; Samples.down_BBB; Samples.flat_CCC]
  = Some [1 # 2; -1 # 2; 0]%Q.
Proof. vm_compute. reflexivity. Qed.

(** C10 does not hold as it is stated: for ten insights [Up] every percent
    is the float [0.1], which is larger than one tenth, and the ten of them
    do not add up to [1], neither as rationals nor when they are added as
    floats from left to right. *)
Lemma DetermineTargetPercent_sum_not_one :
  0 < count Samples.ten_up
  ∧ ∃ ps : list Q,
      assigned Samples.ten_up = Some ps
      ∧ Qsum (map Qabs ps) == 36028797018963970 # 36028797018963968
      ∧ ¬ Qsum (map Qabs ps) == 1
      ∧ Float.sum (map Qabs ps) == 9007199254740991 # 9007199254740992
      ∧ ¬ Float.sum (map Qabs ps) == 1.
Proof.
  split; [reflexivity|].
  exists (map (weight (percent Samples.ten_up)) Samples.ten_up).
  split; [apply assigned_eq|].
  assert (E : map Qabs (map (weight (percent Samples.ten_up)) Samples.ten_up)
              = repeat (7205759403792794 # 72057594037927936) 10).
  { vm_compute. reflexivity. }
  rewrite E. repeat split; try (vm_compute; reflexivity); vm_compute; discriminate.
Qed.

(** C10, amended.  Every insight of the list has a percent.  A [Flat] insight
    has the percent [0].  The absolute values of the percents of the [N]
    insights that are not flat add up to [0] when [N = 0] and to [N] times
    the float [1.0 / N] otherwise; this sum is within [2 ^ -53] of [1], and it
    is [1] when [N] is a power of two. *)
Theorem DetermineTargetPercent_sum (lastActiveInsights : list Insight.t) :
  ∃ ps : list Q,
    assigned lastActiveInsights = Some ps
    ∧ (∀ x, x ∈ lastActiveInsights → Insight.Direction x = Flat →
            DetermineTargetPercent lastActiveInsights !! x = Some 0%Q)
    ∧ (count lastActiveInsights = 0 → Qsum (map Qabs ps) == 0)
    ∧ (0 < count lastActiveInsights →
       Qsum (map Qabs ps)
       == inject_Z (count lastActiveInsights)
          * Float.div 1 (Float.of_int (count lastActiveInsights)))
    ∧ (0 < count lastActiveInsights < 2 ^ 53 →
       (Qabs (Qsum (map Qabs ps) - 1) <= 1 # Z.to_pos (2 ^ 53))%Q)
    ∧ (∀ k, 0 <= k < 53 → count lastActiveInsights = 2 ^ k →
            Qsum (map Qabs ps) == 1).
Proof.
  exists (map (weight (percent lastActiveInsights)) lastActiveInsights).
  split; [apply assigned_eq|].
  assert (HP : 0 < count lastActiveInsights →
               percent lastActiveInsights
               = Float.div 1 (Float.of_int (count lastActiveInsights))).
  { intros Hc. unfold percent.
    destruct (Z.eqb_spec (count lastActiveInsights) 0); [lia|reflexivity]. }
  split; [|split; [|split; [|split]]].
  - intros x Hin Hd. rewrite (DetermineTargetPercent_lookup _ _ Hin).
    unfold weight. rewrite Hd. reflexivity.
  - intros Hc. rewrite assigned_sum, Hc. ring.
  - intros Hc. rewrite assigned_sum, (HP Hc). reflexivity.
  - intros Hc. rewrite assigned_sum, (HP ltac:(lia)). now apply inv_sum_error.
  - intros k Hk Hc.
    assert (P : 0 < 2 ^ k) by (apply Z.pow_pos_nonneg; lia).
    rewrite assigned_sum, (HP ltac:(lia)), Hc, (inv_pow2 k Hk).
    field. intros Z0. apply (inject_Z_pos (2 ^ k)) in P. rewrite Z0 in P. discriminate.
Qed.

End DetermineTargetPercentClaims.

(** ** CreateTargets *)

Module CreateTargetsFacts.
Import FloatFacts PortfolioModel PercentNotions TargetNotions DetermineTargetPercentFacts.

Section Facts.
Context `{Host}.

(** *** The Python helpers never raise inside [CreateTargets] *)

Lemma groupby_nonempty {A K : Type} `{EqDecision K} (key : A → K) (l : list A) :
  Forall (λ kg, snd kg ≠ []) (Py.groupby key l).
Proof.
  induction l as [|x l IH]; cbn [Py.groupby]; [constructor|].
  destruct (Py.groupby key l) as [|[k g] rest].
  - repeat constructor. discriminate.
  - inversion IH; subst. destruct (decide (key x = k)).
    + constructor; [discriminate|assumption].
    + constructor; [discriminate|]. constructor; assumption.
Qed.

Lemma insert_by_length {A : Type} (key : A → Z) (x : A) (l : list A) :
  length (Py.insert_by key x l) = S (length l).
Proof.
  induction l as [|y l IH]; cbn [Py.insert_by]; [reflexivity|].
  destruct (key x <? key y); cbn [length]; [reflexivity|]. now rewrite IH.
Qed.

Lemma sorted_length {A : Type} (key : A → Z) (l : list A) :
  length (Py.sorted key l) = length l.
Proof.
  unfold Py.sorted.
  assert (G : ∀ acc, length (fold_left (λ acc x, Py.insert_by key x acc) l acc)
                     = (length l + length acc)%nat).
  { induction l as [|x l IH]; intros acc; cbn [fold_left length]; [reflexivity|].
    rewrite IH, insert_by_length. lia. }
  rewrite G. cbn [length]. lia.
Qed.

Lemma last_sorted_is_Some {A : Type} (key : A → Z) (g : list A) :
  g ≠ [] → is_Some (last (Py.sorted key g)).
Proof.
  intros Hg. pose proof (sorted_length key g) as L.
  destruct (Py.sorted key g) as [|y s] eqn:E.
  - destruct g; [congruence|discriminate].
  - rewrite last_is_Some. discriminate.
Qed.

(** [sorted(g, ...)[-1]] is defined for every run that [groupby] yields. *)
Lemma lastActiveInsights_of_total (activeInsights : list Insight.t) :
  is_Some (lastActiveInsights_of activeInsights).
Proof.
  unfold lastActiveInsights_of. apply mapM_is_Some.
  eapply Forall_impl; [apply groupby_nonempty|].
  intros [symbol g] Hg. cbn in *. now apply last_sorted_is_Some.
Qed.

(** *** The loop over the last active insights *)

Lemma percent_loop_eq algorithm percents l targets errorSymbols :
  Forall (λ x, is_Some (percents !! x)) l →
  percent_loop algorithm percents l targets errorSymbols
  = Some (targets ++ percent_targets algorithm percents l,
          error_symbols algorithm percents l errorSymbols).
Proof.
  intros Hk. revert targets errorSymbols.
  induction Hk as [|x l [p Hp] Hk IH]; intros targets errorSymbols.
  - cbn. now rewrite app_nil_r.
  - assert (Et : target_of algorithm percents x
                 = Percent algorithm (Insight.Symbol x) p).
    { unfold target_of. rewrite Hp. reflexivity. }
    cbn [percent_loop]. rewrite Hp. cbn [mbind option_bind].
    unfold percent_targets, error_symbols. cbn [omap list_omap fold_left].
    rewrite Et. destruct (Percent algorithm (Insight.Symbol x) p) as [target|].
    + rewrite IH. unfold percent_targets, error_symbols. now rewrite <- app_assoc.
    + rewrite IH. reflexivity.
Qed.

Lemma error_symbols_lookup algorithm percents l errorSymbols symbol :
  is_Some (error_symbols algorithm percents l errorSymbols !! symbol)
  ↔ is_Some (errorSymbols !! symbol)
    ∨ ∃ x, x ∈ l ∧ Insight.Symbol x = symbol ∧ target_of algorithm percents x = None.
Proof.
  unfold error_symbols. revert errorSymbols.
  induction l as [|y l IH]; intros errorSymbols; cbn [fold_left].
  - split; [now left|]. intros [?|(x & Hx & _)]; [assumption|inversion Hx].
  - rewrite IH. destruct (target_of algorithm percents y) eqn:Ey.
    + split.
      * intros [?|(x & Hx & ?)]; [now left|]. right. exists x. split; [now right|assumption].
      * intros [?|(x & Hx & Hs & Hn)]; [now left|]. right.
        inversion Hx; subst; [congruence|]. exists x. tauto.
    + rewrite lookup_insert_is_Some. split.
      * intros [[E|[_ ?]]|(x & Hx & ?)].
        -- right. exists y. split; [left|]. tauto.
        -- now left.
        -- right. exists x. split; [now right|assumption].
      * intros [?|(x & Hx & Hs & Hn)].
        -- left. destruct (decide (Insight.Symbol y = symbol)); [now left|right; tauto].
        -- inversion Hx; subst; [left; now left|]. right. exists x. tauto.
Qed.

Lemma DetermineTargetPercent_keys (l : list Insight.t) :
  Forall (λ x, is_Some (DetermineTargetPercent l !! x)) l.
Proof.
  apply Forall_forall. intros x Hin.
  rewrite (DetermineTargetPercent_lookup l x Hin). eauto.
Qed.

(** *** The whole method *)

(** What [CreateTargets] returns after the early return, for a state and a
    time at which the rebalancing time can be updated.  [ic] is the
    collection with the new insights, [ic'] the collection without the
    expired ones. *)
Lemma CreateTargets_run (self : PortfolioModel.t) (algorithm : Algorithm)
    (insights : list Insight.t) :
  can_rebalance self (UtcTime algorithm) →
  nothing_to_do self algorithm insights = false →
  let now := UtcTime algorithm in
  let ic := fold_left Add insights (insightCollection self) in
  let deselected :=
    match removedSymbols self with
    | Some removed => universeDeselectionTargets removed
    | None => []
    end in
  let expired := (RemoveExpiredInsights ic now).1 in
  let ic' := (RemoveExpiredInsights ic now).2 in
  ∃ lastActiveInsights self',
    lastActiveInsights_of (GetActiveInsights ic now) = Some lastActiveInsights
    ∧ insightCollection self' = ic'
    ∧ removedSymbols self' = None
    ∧ CreateTargets self algorithm insights
      = Some
          (if ShouldCreateTargets self algorithm lastActiveInsights then
             let percents := DetermineTargetPercent lastActiveInsights in
             deselected
             ++ percent_targets algorithm percents lastActiveInsights
             ++ expiredTargets ic' now
                  (error_symbols algorithm percents lastActiveInsights ∅) expired
           else deselected ++ expiredTargets ic' now ∅ expired,
           self').
Proof.
  intros Hwf Hgo. cbn zeta. unfold CreateTargets. fold (nothing_to_do self algorithm insights).
  rewrite Hgo.
  destruct (lastActiveInsights_of_total
              (GetActiveInsights (fold_left Add insights (insightCollection self))
                 (UtcTime algorithm))) as [lastActiveInsights Hl].
  rewrite Hl. cbn [mbind option_bind].
  destruct (RemoveExpiredInsights (fold_left Add insights (insightCollection self))
              (UtcTime algorithm)) as [expired ic'] eqn:Er.
  cbn [fst snd].
  assert (Ht : ∀ l : list PortfolioTarget.t,
             match removedSymbols self with
             | Some removed => [] ++ universeDeselectionTargets removed
             | None => []
             end ++ l
             = match removedSymbols self with
               | Some removed => universeDeselectionTargets removed
               | None => []
               end ++ l).
  { intros l. destruct (removedSymbols self); reflexivity. }
  exists lastActiveInsights.
  destruct (ShouldCreateTargets self algorithm lastActiveInsights).
  - rewrite (percent_loop_eq _ _ _ _ _ (DetermineTargetPercent_keys lastActiveInsights)).
    cbn [mbind option_bind].
    destruct (truthy (rebalancing self)) eqn:Et.
    + destruct (Hwf Et) as (f & Hf & [time Hf']). rewrite Hf. cbn [mbind option_bind].
      rewrite Hf'. cbn [mbind option_bind].
      eexists. split; [reflexivity|]. split; [|split]; cycle 2.
      * rewrite <- app_assoc, Ht. reflexivity.
      * reflexivity.
      * reflexivity.
    + cbn [mbind option_bind].
      eexists. split; [reflexivity|]. split; [|split]; cycle 2.
      * rewrite <- app_assoc, Ht. reflexivity.
      * reflexivity.
      * reflexivity.
  - cbn [mbind option_bind].
    eexists. split; [reflexivity|]. split; [|split]; cycle 2.
    + rewrite Ht. reflexivity.
    + reflexivity.
    + reflexivity.
Qed.

End Facts.
End CreateTargetsFacts.

Module CreateTargetsClaims.
Import FloatFacts PortfolioModel PercentNotions TargetNotions DetermineTargetPercentFacts CreateTargetsFacts.

Section Claims.
Context `{Host}.

(** What the constructor leaves in the two attributes that only it sets. *)
Lemma init_rebalancing (rebalancingParam : Z) (self : PortfolioModel.t) :
  init rebalancingParam = Some self →
  (0 < rebalancingParam <= 999999999
   ∧ rebalancing self = 1
   ∧ rebalancingFunc self
     = Some (λ dt, datetime_add dt (rebalancingParam * 86400000000)))
  ∨ (rebalancingParam <= 0
     ∧ rebalancing self = rebalancingParam
     ∧ rebalancingFunc self = None).
Proof.
  unfold init, timedelta_days. intros E.
  destruct (Z.ltb_spec 0 rebalancingParam) as [Hlt|Hge].
  - left. destruct (Z.leb_spec (-999999999) rebalancingParam);
      destruct (Z.leb_spec rebalancingParam 999999999); cbn in E; try discriminate.
    inversion E; subst. cbn. repeat split; (lia || reflexivity).
  - right. inversion E; subst. cbn. tauto.
Qed.

(** Both methods keep the two attributes. *)
Lemma CreateTargets_keeps_rebalancing self algorithm insights targets self' :
  CreateTargets self algorithm insights = Some (targets, self') →
  rebalancing self' = rebalancing self ∧ rebalancingFunc self' = rebalancingFunc self.
Proof.
  intros E. unfold CreateTargets in E.
  destruct (_ && _ && _); [now inversion E; subst|].
  destruct (lastActiveInsights_of _) as [l|]; [|discriminate]. cbn [mbind option_bind] in E.
  destruct (RemoveExpiredInsights _ _) as [expired ic'].
  destruct (ShouldCreateTargets self algorithm l).
  - destruct (percent_loop _ _ _ _ _) as [[ts errs]|]; [|discriminate].
    cbn [mbind option_bind] in E.
    destruct (truthy (rebalancing self)).
    + destruct (rebalancingFunc self) as [f|]; [|discriminate]. cbn in E.
      destruct (f (UtcTime algorithm)); [|discriminate]. cbn in E.
      inversion E; subst. cbn. tauto.
    + cbn in E. inversion E; subst. cbn. tauto.
  - cbn in E. inversion E; subst. cbn. tauto.
Qed.


(** C8.  With no new insight, a time that is not after [nextExpiryTime] and
    [removedSymbols] equal to [None], [CreateTargets] returns the empty list,
    and [self] after the call is [self] before it: [insightCollection],
    [removedSymbols], [nextExpiryTime] and [rebalancingTime] are unchanged. *)
Theorem CreateTargets_nothing_to_do (self : PortfolioModel.t) (algorithm : Algorithm) :
  UtcTime algorithm <= nextExpiryTime self →
  removedSymbols self = None →
  CreateTargets self algorithm [] = Some ([], self).
Proof.
  intros Ht Hr. unfold CreateTargets. cbn [length Nat.eqb andb].
  rewrite (proj2 (Z.leb_le _ _) Ht), bool_decide_true by exact Hr. reflexivity.
Qed.



(** A flatten target of the expired insights is never made for a symbol
    that is in [errorSymbols]. *)
Lemma expiredTargets_not_error ic now errorSymbols expired symbol :
  is_Some (errorSymbols !! symbol) →
  PortfolioTarget.mk symbol 0 ∉ expiredTargets ic now errorSymbols expired.
Proof.
  intros He Hin. unfold expiredTargets in Hin.
  apply list_elem_of_omap in Hin. destruct Hin as ([k g] & _ & Hk).
  destruct (HasActiveInsights ic k now); cbn in Hk; [discriminate|].
  destruct (bool_decide (is_Some (errorSymbols !! k))) eqn:Eb; cbn in Hk; [discriminate|].
  inversion Hk; subst. apply bool_decide_eq_false in Eb. contradiction.
Qed.

Lemma omap_id_map {A B : Type} (f : A → option B) (l : list A) :
  omap id (map f l) = omap f l.
Proof.
  induction l as [|x l IH]; [reflexivity|].
  cbn [map omap list_omap id]. destruct (f x); now rewrite <- IH.
Qed.

Lemma omap_length_filter {A B : Type} (f : A → option B) (l : list A) :
  (length (omap f l) + length (filter (λ x, f x = None) l) = length l)%nat.
Proof.
  induction l as [|x l IH]; [reflexivity|].
  cbn [omap list_omap]. rewrite filter_cons. destruct (f x) eqn:E.
  - rewrite decide_False by discriminate. cbn [length]. fold (omap f l). lia.
  - rewrite decide_True by reflexivity. cbn [length]. fold (omap f l). lia.
Qed.

(** C3, amended.  Let [PortfolioTarget.Percent] return null for an insight
    [x] of [lastActiveInsights] in a call of [CreateTargets] that creates
    targets, at a time at which the rebalancing time can be updated
    ([rebalancing] is false, or [rebalancingFunc] is set and returns a time).
    The call returns a list.  Between the flatten targets of the
    removed symbols and those of the expired insights the list holds the
    results that are not null, in the order of the insights, so there is no
    entry for [x]; the symbol of [x] is in [errorSymbols]; and no flatten
    target of the expired insights is made for that symbol. *)
Theorem CreateTargets_null_target
    (self : PortfolioModel.t) (algorithm : Algorithm) (insights : list Insight.t) :
  can_rebalance self (UtcTime algorithm) →
  nothing_to_do self algorithm insights = false →
  let now := UtcTime algorithm in
  let ic := fold_left Add insights (insightCollection self) in
  let deselected :=
    match removedSymbols self with
    | Some removed => universeDeselectionTargets removed
    | None => []
    end in
  ∃ lastActiveInsights targets self',
    lastActiveInsights_of (GetActiveInsights ic now) = Some lastActiveInsights
    ∧ CreateTargets self algorithm insights = Some (targets, self')
    ∧ (ShouldCreateTargets self algorithm lastActiveInsights = true →
       let percents := DetermineTargetPercent lastActiveInsights in
       let errorSymbols := error_symbols algorithm percents lastActiveInsights ∅ in
       let passed := percent_stage_as_claimed algorithm percents lastActiveInsights in
       let expired :=
         expiredTargets (RemoveExpiredInsights ic now).2 now errorSymbols
                        (RemoveExpiredInsights ic now).1 in
       targets = deselected ++ omap id passed ++ expired
       ∧ (length (omap id passed)
          + length (filter (λ x, target_of algorithm percents x = None)
                           lastActiveInsights)
          = length lastActiveInsights)%nat
       ∧ ∀ x, x ∈ lastActiveInsights →
              target_of algorithm percents x = None →
              is_Some (errorSymbols !! Insight.Symbol x)
              ∧ PortfolioTarget.mk (Insight.Symbol x) 0 ∉ expired).
Proof.
  intros Hwf Hgo. cbn zeta.
  destruct (CreateTargets_run self algorithm insights Hwf Hgo)
    as (l & self' & Hl & _ & _ & E).
  exists l. eexists _, self'. split; [exact Hl|]. split; [exact E|].
  intros Hs. rewrite Hs. split; [|split].
  - unfold percent_stage_as_claimed, percent_targets. now rewrite omap_id_map.
  - unfold percent_stage_as_claimed. rewrite omap_id_map. apply omap_length_filter.
  - intros x Hin Hn.
    assert (He : is_Some (error_symbols algorithm (DetermineTargetPercent l) l ∅
                            !! Insight.Symbol x)).
    { apply error_symbols_lookup. right. exists x. tauto. }
    split; [exact He|]. now apply expiredTargets_not_error.
Qed.

End Claims.
End CreateTargetsClaims.

(** ** The claims on sample runs *)

Module CreateTargetsRuns.
Import PortfolioModel PercentNotions TargetNotions DetermineTargetPercentFacts CreateTargetsFacts CreateTargetsClaims.
Import Samples PortfolioSamples.

(** C8 at the waiting model: time 50 is before the next expiry, 100. *)
Lemma CreateTargets_nothing_to_do_witness :
  (UtcTime algorithm <= nextExpiryTime waiting
   ∧ removedSymbols waiting = None)
  ∧ CreateTargets waiting algorithm [] = Some ([], waiting).
Proof.
  assert (H1 : UtcTime algorithm <= nextExpiryTime waiting) by (cbn; lia).
  assert (H2 : removedSymbols waiting = None) by reflexivity.
  split; [split; assumption|].
  exact (CreateTargets_nothing_to_do waiting algorithm H1 H2).
Defined.

(** The sample models are what the constructor builds; a number of days
    that [timedelta] does not take makes the constructor raise. *)
Example init_runs :
  init 0 = Some fresh
  ∧ init (-1) = Some negative_days
  ∧ init 7 = Some weekly
  ∧ init 4000000 = Some too_long
  ∧ init 999999999 ≠ None
  ∧ init 1000000000 = None.
Proof. repeat split; try reflexivity. discriminate. Qed.



(** The same run, computed: the two flatten targets are the whole list, and
    the next rebalancing is due a week after time 50. *)
Example CreateTargets_after_removal_run :
  (λ r, (r.1, rebalancingTime r.2))
    <$> CreateTargets (OnSecuritiesChanged weekly algorithm changes) algorithm []
  = Some ([PortfolioTarget.mk AAA 0; PortfolioTarget.mk BBB 0], 604800000050).
Proof. vm_compute. reflexivity. Qed.

(** Why the time must be one at which the rebalancing time can be updated.
    The constructor sets no [rebalancingFunc] for a negative number of days,
    yet leaves [rebalancing] true, and [CreateTargets] raises when it creates
    targets.  And with a period of 4000000 days the next rebalancing time is
    after [datetime.max], so that [rebalancingFunc] raises. *)
Example CreateTargets_negative_rebalancingParam :
  CreateTargets negative_days algorithm [up_AAA] = None.
Proof. vm_compute. reflexivity. Qed.

Example CreateTargets_rebalancingTime_overflow :
  CreateTargets too_long algorithm [] = None
  ∧ CreateTargets (OnSecuritiesChanged too_long algorithm changes) algorithm [] = None.
Proof. split; vm_compute; reflexivity. Qed.

(** One insight [Up] for [BBB], which costs 10: the whole portfolio value
    of 100000 goes to [BBB]. *)
Example CreateTargets_one_insight_run :
  (λ r, map (λ target, (PortfolioTarget.Symbol target,
                         Qred (PortfolioTarget.Quantity target))) r.1)
    <$> CreateTargets fresh algorithm [Insight.mk 4 BBB Up 10 100]
  = Some [(BBB, 10000%Q)].
Proof. vm_compute. reflexivity. Qed.

(** The insight of a model has expired at time 50 and nothing else is
    active: the call returns the flatten target for its symbol. *)
Example CreateTargets_expired_run :
  fst <$> CreateTargets
            {| insightCollection := [Insight.mk 5 BBB Up 10 40];
               removedSymbols := None;
               nextExpiryTime := 40;
               rebalancingTime := UTCMIN;
               rebalancing := 0;
               rebalancingFunc := None |}
            algorithm []
  = Some [PortfolioTarget.mk BBB 0].
Proof. vm_compute. reflexivity. Qed.

(** C3 does not hold as it is stated.  The fresh model receives one insight
    [Up] for [AAA], which has no price, so [PortfolioTarget.Percent] returns
    null.  The null is not handed on: the list that [CreateTargets] returns
    is empty, which is not the list of the results of the engine.  And the
    loop does react to the null: it records [AAA] in [errorSymbols]. *)
Lemma CreateTargets_null_is_dropped :
  target_of algorithm (DetermineTargetPercent [up_AAA]) up_AAA = None
  ∧ percent_stage_as_claimed algorithm (DetermineTargetPercent [up_AAA]) [up_AAA]
    = [None]
  ∧ percent_loop algorithm (DetermineTargetPercent [up_AAA]) [up_AAA] [] ∅
    = Some ([], {[AAA := AAA]})
  ∧ ∃ self',
      CreateTargets fresh algorithm [up_AAA] = Some ([], self')
      ∧ map Some ([] : list PortfolioTarget.t)
        ≠ percent_stage_as_claimed algorithm (DetermineTargetPercent [up_AAA]) [up_AAA].
Proof.
  split; [vm_compute; reflexivity|].
  split; [vm_compute; reflexivity|].
  split; [vm_compute; reflexivity|].
  eexists. split; [vm_compute; reflexivity|].
  vm_compute. discriminate.
Qed.

(** C3, amended, for the same insight at the weekly model: the call creates
    targets because a rebalancing is due, [PortfolioTarget.Percent] returns
    null for [AAA], and the next rebalancing time, a week after time 50, is a
    [datetime]. *)
Lemma CreateTargets_null_target_witness :
  (can_rebalance weekly (UtcTime algorithm)
   ∧ nothing_to_do weekly algorithm [up_AAA] = false)
  ∧ ∃ lastActiveInsights targets self',
      lastActiveInsights_of
        (GetActiveInsights (fold_left Add [up_AAA] (insightCollection weekly))
                           (UtcTime algorithm))
      = Some lastActiveInsights
      ∧ CreateTargets weekly algorithm [up_AAA] = Some (targets, self')
      ∧ (ShouldCreateTargets weekly algorithm lastActiveInsights = true →
         targets
         = match removedSymbols weekly with
           | Some removed => universeDeselectionTargets removed
           | None => []
           end
           ++ omap id (percent_stage_as_claimed algorithm
                         (DetermineTargetPercent lastActiveInsights) lastActiveInsights)
           ++ expiredTargets
                (RemoveExpiredInsights
                   (fold_left Add [up_AAA] (insightCollection weekly))
                   (UtcTime algorithm)).2
                (UtcTime algorithm)
                (error_symbols algorithm (DetermineTargetPercent lastActiveInsights)
                   lastActiveInsights ∅)
                (RemoveExpiredInsights
                   (fold_left Add [up_AAA] (insightCollection weekly))
                   (UtcTime algorithm)).1
         ∧ (length (omap id (percent_stage_as_claimed algorithm
                               (DetermineTargetPercent lastActiveInsights)
                               lastActiveInsights))
            + length (filter (λ x, target_of algorithm
                                     (DetermineTargetPercent lastActiveInsights) x = None)
                             lastActiveInsights)
            = length lastActiveInsights)%nat
         ∧ ∀ x, x ∈ lastActiveInsights →
                target_of algorithm (DetermineTargetPercent lastActiveInsights) x = None →
                is_Some (error_symbols algorithm (DetermineTargetPercent lastActiveInsights)
                           lastActiveInsights ∅ !! Insight.Symbol x)
                ∧ PortfolioTarget.mk (Insight.Symbol x) 0
                  ∉ expiredTargets
                      (RemoveExpiredInsights
                         (fold_left Add [up_AAA] (insightCollection weekly))
                         (UtcTime algorithm)).2
                      (UtcTime algorithm)
                      (error_symbols algorithm (DetermineTargetPercent lastActiveInsights)
                         lastActiveInsights ∅)
                      (RemoveExpiredInsights
                         (fold_left Add [up_AAA] (insightCollection weekly))
                         (UtcTime algorithm)).1).
Proof.
  assert (Hwf : can_rebalance weekly (UtcTime algorithm)).
  { intros _. eexists. split; [reflexivity|]. vm_compute. eauto. }
  assert (Hgo : nothing_to_do weekly algorithm [up_AAA] = false) by reflexivity.
  split; [split; assumption|].
  exact (CreateTargets_null_target weekly algorithm [up_AAA] Hwf Hgo).
Defined.

End CreateTargetsRuns.

(** ** The universe selection model *)

Module UniverseFacts.
Import UniverseModel.

Lemma Qltb_lt x y : Qltb x y = true ↔ (x < y)%Q.
Proof. unfold Qltb, Qlt. apply Z.ltb_lt. Qed.

Lemma Qleb_le x y : Qleb x y = true ↔ (x <= y)%Q.
Proof. unfold Qleb, Qle. apply Z.leb_le. Qed.

Lemma small_cap_spec x :
  small_cap x = true
  ↔ (300000000 < FineFundamental.MarketCap x)%Q
    ∧ (FineFundamental.MarketCap x < 2000000000)%Q
    ∧ (0 < FineFundamental.PERatio x)%Q.
Proof.
  unfold small_cap. rewrite !andb_true_iff, !Qltb_lt. tauto.
Qed.

(** *** [LinearPercentile] is a [Library] *)

Lemma insert_float_length x l : length (Py.insert_float x l) = S (length l).
Proof.
  induction l as [|y l IH]; cbn [Py.insert_float]; [reflexivity|].
  destruct (Qltb x y); cbn [length]; [reflexivity|]. now rewrite IH.
Qed.

Lemma sort_floats_length l : length (Py.sort_floats l) = length l.
Proof.
  unfold Py.sort_floats.
  assert (G : ∀ acc, length (fold_left (λ acc x, Py.insert_float x acc) l acc)
                     = (length l + length acc)%nat).
  { induction l as [|x l IH]; intros acc; cbn [fold_left length]; [reflexivity|].
    rewrite IH, insert_float_length. lia. }
  rewrite G. cbn [length]. lia.
Qed.

Lemma take_in_range (ap : list Q) (i : Z) :
  0 <= i < Z.of_nat (length ap) → is_Some (LinearPercentile.take ap i).
Proof.
  intros [L U]. unfold LinearPercentile.take.
  rewrite (proj2 (Z.leb_le 0 i) L), (proj2 (Z.ltb_lt _ _) U). cbn [andb].
  apply lookup_lt_is_Some. lia.
Qed.

Lemma linear_percentile_empty q : LinearPercentile.percentile [] q = None.
Proof.
  unfold LinearPercentile.percentile. cbn [Py.sort_floats fold_left length Z.of_nat].
  assert (T : ∀ i, LinearPercentile.take [] i = None).
  { intros i. unfold LinearPercentile.take.
    repeat case_match; reflexivity. }
  rewrite !T. reflexivity.
Qed.

Lemma linear_percentile_nonempty a q :
  a ≠ [] → (0 <= q)%Q → (q <= 100)%Q → is_Some (LinearPercentile.percentile a q).
Proof.
  intros Ha L U. unfold LinearPercentile.percentile.
  pose proof (sort_floats_length a) as Hlen.
  set (ap := Py.sort_floats a) in *.
  set (n := Z.of_nat (length ap)).
  assert (Hn : 1 <= n).
  { unfold n. rewrite Hlen. destruct a; [congruence|]. cbn [length]. lia. }
  set (indices := (q / 100 * inject_Z (n - 1))%Q).
  assert (I0 : (0 <= indices)%Q).
  { unfold indices. apply Qmult_le_0_compat.
    - apply Qle_shift_div_l; [reflexivity|]. now rewrite Qmult_0_l.
    - unfold Qle, inject_Z; cbn. lia. }
  assert (I1 : (indices <= inject_Z (n - 1))%Q).
  { unfold indices.
    apply (Qle_trans _ (1 * inject_Z (n - 1))%Q).
    - apply Qmult_le_compat_r.
      + apply Qle_shift_div_r; [reflexivity|]. now rewrite Qmult_1_l.
      + unfold Qle, inject_Z; cbn. lia.
    - rewrite Qmult_1_l. apply Qle_refl. }
  assert (F0 : 0 <= Qfloor indices).
  { change 0 with (Qfloor 0). now apply Qfloor_resp_le. }
  assert (F1 : Qfloor indices <= n - 1).
  { rewrite <- (Qfloor_Z (n - 1)). now apply Qfloor_resp_le. }
  destruct (take_in_range ap (Qfloor indices)) as [x Hx]; [fold n; lia|].
  destruct (take_in_range ap (Z.min (Qfloor indices + 1) (n - 1))) as [y Hy]; [fold n; lia|].
  rewrite Hx. cbn [mbind option_bind]. rewrite Hy. cbn [mbind option_bind]. eauto.
Qed.

#[global] Instance linear_percentile : Library := {|
  percentile := LinearPercentile.percentile;
  percentile_empty := linear_percentile_empty;
  percentile_nonempty := linear_percentile_nonempty;
  str_float := LinearPercentile.str_float
|}.

End UniverseFacts.

Module UniverseClaims.
Import UniverseModel UniverseFacts.

(** C4 does not hold as it is stated.  The first call in 2015 returns the
    list of the selected symbols; the second call in the same year returns
    the constant [Universe.Unchanged], which is no list of symbols, and logs
    nothing. *)
Lemma SelectCoarse_second_call_unchanged :
  ∃ self' log,
    SelectCoarse init UniverseSamples.algorithm UniverseSamples.coarse
    = (Symbols [Samples.AAA], self', log)
    ∧ SelectCoarse self' UniverseSamples.algorithm UniverseSamples.coarse
      = (Unchanged, self', [])
    ∧ ∀ coarseSelection, Unchanged ≠ Symbols coarseSelection.
Proof.
  eexists _, _. split; [vm_compute; reflexivity|].
  split; [vm_compute; reflexivity|]. discriminate.
Qed.

(** C4, amended.  When the year of [algorithm.Time] is the year in
    [periodCheck], [SelectCoarse] returns [Universe.Unchanged] and leaves
    [self] as it is.  Otherwise it sets [periodCheck] to the year, logs the
    number of securities that pass, and returns the list of their symbols,
    in the order of [coarse]. *)
Theorem SelectCoarse_returns (self : UniverseModel.t) (algorithm : QCAlgorithm.t)
    (coarse : list CoarseFundamental.t) :
  let year := QCAlgorithm.Time_year algorithm in
  (year = periodCheck self ∧ SelectCoarse self algorithm coarse = (Unchanged, self, []))
  ∨ (year ≠ periodCheck self
     ∧ SelectCoarse self algorithm coarse
       = (Symbols (map CoarseFundamental.Symbol (filterCoarse coarse)),
          {| periodCheck := year |},
          ["stocks with fundamental data and price above 5: "
             +:+ Py.str_int (length (filterCoarse coarse))])).
Proof.
  cbn zeta. unfold SelectCoarse.
  destruct (Z.eqb_spec (QCAlgorithm.Time_year algorithm) (periodCheck self)) as [E|E].
  - left. split; [exact E|reflexivity].
  - right. split; [exact E|reflexivity].
Qed.

(** C7.  When the selection runs (the year has changed), a security of
    [coarse] passes the coarse stage exactly when it has fundamental data and
    its price is above 5; the symbols of the securities that pass are what
    [SelectCoarse] returns. *)
Theorem SelectCoarse_price_filter (self : UniverseModel.t) (algorithm : QCAlgorithm.t)
    (coarse : list CoarseFundamental.t) :
  QCAlgorithm.Time_year algorithm ≠ periodCheck self →
  ∃ self' log,
    SelectCoarse self algorithm coarse
    = (Symbols (map CoarseFundamental.Symbol (filterCoarse coarse)), self', log)
    ∧ filterCoarse coarse `sublist_of` coarse
    ∧ ∀ x, x ∈ filterCoarse coarse
           ↔ x ∈ coarse
             ∧ CoarseFundamental.HasFundamentalData x = true
             ∧ (5 < CoarseFundamental.Price x)%Q.
Proof.
  intros Hy.
  assert (E : SelectCoarse self algorithm coarse
              = (Symbols (map CoarseFundamental.Symbol (filterCoarse coarse)),
                 {| periodCheck := QCAlgorithm.Time_year algorithm |},
                 ["stocks with fundamental data and price above 5: "
                    +:+ Py.str_int (length (filterCoarse coarse))])).
  { unfold SelectCoarse.
    destruct (Z.eqb_spec (QCAlgorithm.Time_year algorithm) (periodCheck self));
      [contradiction|reflexivity]. }
  eexists _, _. split; [exact E|]. split.
  - apply sublist_filter.
  - intros x. unfold filterCoarse. rewrite list_elem_of_filter, Qltb_lt. tauto.
Qed.

Lemma SelectCoarse_price_filter_witness :
  QCAlgorithm.Time_year UniverseSamples.algorithm ≠ periodCheck init
  ∧ ∃ self' log,
      SelectCoarse init UniverseSamples.algorithm UniverseSamples.coarse
      = (Symbols (map CoarseFundamental.Symbol (filterCoarse UniverseSamples.coarse)),
         self', log)
      ∧ filterCoarse UniverseSamples.coarse `sublist_of` UniverseSamples.coarse
      ∧ ∀ x, x ∈ filterCoarse UniverseSamples.coarse
             ↔ x ∈ UniverseSamples.coarse
               ∧ CoarseFundamental.HasFundamentalData x = true
               ∧ (5 < CoarseFundamental.Price x)%Q.
Proof.
  assert (Hy : QCAlgorithm.Time_year UniverseSamples.algorithm ≠ periodCheck init)
    by discriminate.
  split; [exact Hy|].
  exact (SelectCoarse_price_filter init UniverseSamples.algorithm UniverseSamples.coarse Hy).
Defined.

Section Fine.
Context `{Library}.

Lemma SelectFine_Some self algorithm fine fineSelection log :
  SelectFine self algorithm fine = Some (fineSelection, log) →
  ∃ lowestPERatioPercentile,
    percentile (peRatios fine) 1 = Some lowestPERatioPercentile
    ∧ fineSelection
      = map FineFundamental.Symbol
            (lowestPERatio lowestPERatioPercentile (filterFine fine)).
Proof.
  unfold SelectFine, peRatios. intros E.
  destruct (percentile (map FineFundamental.PERatio (filterFine fine)) 1) as [pct|];
    [|discriminate].
  cbn [mbind option_bind] in E. inversion E; subst. eauto.
Qed.

(** C9.  [SelectFine] returns exactly when some security passes the filter
    of the small caps with a positive P/E ratio.  If the filtered list is not
    empty, the percentile is computed and [SelectFine] returns a list; if it
    is empty, the percentile of the empty list raises, and so does
    [SelectFine]. *)
Theorem SelectFine_total_iff_small_caps (self : UniverseModel.t)
    (algorithm : QCAlgorithm.t) (fine : list FineFundamental.t) :
  (filterFine fine ≠ [] ∧
   ∃ lowestPERatioPercentile fineSelection log,
     percentile (peRatios fine) 1 = Some lowestPERatioPercentile
     ∧ SelectFine self algorithm fine = Some (fineSelection, log))
  ∨ (filterFine fine = []
     ∧ percentile (peRatios fine) 1 = None
     ∧ SelectFine self algorithm fine = None).
Proof.
  destruct (filterFine fine) as [|x l] eqn:Ef.
  - right. split; [reflexivity|].
    assert (Ep : percentile (peRatios fine) 1 = None).
    { unfold peRatios. rewrite Ef. apply percentile_empty. }
    split; [exact Ep|]. unfold SelectFine. fold (peRatios fine). rewrite Ep. reflexivity.
  - left. split; [discriminate|].
    destruct (percentile_nonempty (peRatios fine) 1) as [pct Ep].
    + unfold peRatios. rewrite Ef. discriminate.
    + discriminate.
    + discriminate.
    + exists pct. unfold SelectFine. fold (peRatios fine). rewrite Ep.
      cbn [mbind option_bind]. eauto.
Qed.

(** C5.  The list that [SelectFine] returns is not longer than the list of
    the small caps from which the percentile was computed. *)
Theorem SelectFine_at_most_small_caps (self : UniverseModel.t)
    (algorithm : QCAlgorithm.t) (fine : list FineFundamental.t)
    (fineSelection : list Symbol.t) (log : list string) :
  SelectFine self algorithm fine = Some (fineSelection, log) →
  (length fineSelection <= length (filterFine fine))%nat.
Proof.
  intros E. destruct (SelectFine_Some _ _ _ _ _ E) as (pct & _ & ->).
  rewrite length_map. unfold lowestPERatio. apply length_filter.
Qed.

(** C6.  Every symbol that [SelectFine] returns is the symbol of a security
    of [fine] whose market cap is strictly between 300 million and 2
    billion, whose P/E ratio is strictly positive, and whose P/E ratio is at
    or below the first percentile of the P/E ratios of the small caps. *)
Theorem SelectFine_small_cap_low_PE (self : UniverseModel.t)
    (algorithm : QCAlgorithm.t) (fine : list FineFundamental.t)
    (fineSelection : list Symbol.t) (log : list string) :
  SelectFine self algorithm fine = Some (fineSelection, log) →
  ∃ lowestPERatioPercentile,
    percentile (map FineFundamental.PERatio (filterFine fine)) 1
    = Some lowestPERatioPercentile
    ∧ ∀ symbol, symbol ∈ fineSelection →
        ∃ x, x ∈ fine
             ∧ FineFundamental.Symbol x = symbol
             ∧ (300000000 < FineFundamental.MarketCap x)%Q
             ∧ (FineFundamental.MarketCap x < 2000000000)%Q
             ∧ (0 < FineFundamental.PERatio x)%Q
             ∧ (FineFundamental.PERatio x <= lowestPERatioPercentile)%Q.
Proof.
  intros E. destruct (SelectFine_Some _ _ _ _ _ E) as (pct & Ep & ->).
  exists pct. split; [exact Ep|].
  intros symbol Hin. apply list_elem_of_fmap in Hin. destruct Hin as (x & -> & Hx).
  unfold lowestPERatio, filterFine in Hx.
  rewrite !list_elem_of_filter, small_cap_spec, Qleb_le in Hx.
  exists x. tauto.
Qed.

End Fine.

(** The sample list of fine data: three small caps with P/E ratios 4, 12
    and 8; the first percentile is 4.08, and only [AAA] is at or below it. *)
Example SelectFine_run :
  SelectFine init UniverseSamples.algorithm UniverseSamples.fine
  = Some ([Samples.AAA],
          ["total number of small caps: 3";
           "small caps in the 1st PE Ratio percentile: 1";
           "stock: AAA, current PE Ratio: 4.00"]).
Proof. vm_compute. reflexivity. Qed.

Example SelectFine_raises : SelectFine init UniverseSamples.algorithm UniverseSamples.large_caps = None.
Proof. vm_compute. reflexivity. Qed.

Lemma SelectFine_at_most_small_caps_witness :
  SelectFine init UniverseSamples.algorithm UniverseSamples.fine
  = Some ([Samples.AAA],
          ["total number of small caps: 3";
           "small caps in the 1st PE Ratio percentile: 1";
           "stock: AAA, current PE Ratio: 4.00"])
  ∧ (length [Samples.AAA] <= length (filterFine UniverseSamples.fine))%nat.
Proof.
  split; [exact SelectFine_run|].
  exact (SelectFine_at_most_small_caps init UniverseSamples.algorithm UniverseSamples.fine
           _ _ SelectFine_run).
Defined.

Lemma SelectFine_small_cap_low_PE_witness :
  SelectFine init UniverseSamples.algorithm UniverseSamples.fine
  = Some ([Samples.AAA],
          ["total number of small caps: 3";
           "small caps in the 1st PE Ratio percentile: 1";
           "stock: AAA, current PE Ratio: 4.00"])
  ∧ ∃ lowestPERatioPercentile,
      percentile (map FineFundamental.PERatio (filterFine UniverseSamples.fine)) 1
      = Some lowestPERatioPercentile
      ∧ ∀ symbol, symbol ∈ [Samples.AAA] →
          ∃ x, x ∈ UniverseSamples.fine
               ∧ FineFundamental.Symbol x = symbol
               ∧ (300000000 < FineFundamental.MarketCap x)%Q
               ∧ (FineFundamental.MarketCap x < 2000000000)%Q
               ∧ (0 < FineFundamental.PERatio x)%Q
               ∧ (FineFundamental.PERatio x <= lowestPERatioPercentile)%Q.
Proof.
  split; [exact SelectFine_run|].
  exact (SelectFine_small_cap_low_PE init UniverseSamples.algorithm UniverseSamples.fine
           _ _ SelectFine_run).
Defined.

End UniverseClaims.

(* ================================================================== *)
(** * Part III: further properties of the two modules *)
(* ================================================================== *)

(** ** More on binary64 rounding *)

Module FloatBounds.
Import FloatFacts.

(** Rounding to the nearest integer does not cross an integer. *)
Lemma rne_le_int n d k : 0 < d → n <= k * d → Float.rne n d <= k.
Proof.
  intros Hd Hn. unfold Float.rne.
  pose proof (Z.div_mod n d ltac:(lia)) as E.
  pose proof (Z.mod_pos_bound n d Hd) as B.
  assert (Hq : n / d <= k) by (apply Z.div_le_upper_bound; lia).
  destruct (Z.compare_spec (2 * (n mod d)) d) as [C|C|C];
    [destruct (Z.even (n / d))| |]; try lia.
  - assert (n / d < k ∨ n / d = k) as [L|L] by lia; [lia|]. rewrite L in E. nia.
  - assert (n / d < k ∨ n / d = k) as [L|L] by lia; [lia|]. rewrite L in E. nia.
Qed.

Lemma rne_ge_int n d k : 0 < d → k * d <= n → k <= Float.rne n d.
Proof.
  intros Hd Hn. unfold Float.rne.
  assert (Hq : k <= n / d) by (apply Z.div_le_lower_bound; lia).
  destruct (2 * (n mod d) ?= d); [destruct (Z.even (n / d))| |]; lia.
Qed.

(** A positive rational that is at most [1] rounds to at most [1]. *)
Lemma round_pos_le_1 a b : 0 < a → a <= b → (Float.round_pos a b <= 1)%Q.
Proof.
  intros Ha Hab. assert (Hb : 0 < b) by lia.
  rewrite round_pos_eq. set (s := Float.exponent a b).
  pose proof (exponent_spec a b Ha Hb) as B. fold s in B.
  unfold Float.in_binade, Float.scale in B. cbn [fst snd] in B.
  unfold Float.scale. cbn [fst snd].
  pose proof (pow2_pos s) as Ps. pose proof (pow2_pos (- s)) as Ms.
  assert (Hs : 0 < s).
  { destruct (Z.lt_ge_cases 0 s) as [L|L]; [exact L|exfalso].
    rewrite (Z.max_r s 0) in B by lia. change (2 ^ 0) with 1 in B. nia. }
  rewrite (Z.max_r (- s) 0) in * by lia. change (2 ^ 0) with 1 in *.
  assert (R : Float.rne (a * 2 ^ Z.max s 0) (b * 1) <= 2 ^ Z.max s 0).
  { apply rne_le_int; nia. }
  unfold Qle; cbn [Qnum Qden]. rewrite Z2Pos.id by lia. lia.
Qed.

(** A rational that is at least [1] rounds to at least [1]. *)
Lemma round_pos_ge_1 a b : 0 < b → b <= a → (1 <= Float.round_pos a b)%Q.
Proof.
  intros Hb Hab. assert (Ha : 0 < a) by lia.
  rewrite round_pos_eq. set (s := Float.exponent a b).
  pose proof (exponent_spec a b Ha Hb) as B. fold s in B.
  unfold Float.in_binade in B.
  destruct (scale_pos a b s Ha Hb) as [Pn Pd].
  pose proof (rne_range _ _ Pd B) as R.
  unfold Float.scale in *. cbn [fst snd] in *.
  pose proof (pow2_pos s) as Ps. pose proof (pow2_pos (- s)) as Ms.
  unfold Qle; cbn [Qnum Qden]. rewrite Z2Pos.id by lia.
  destruct (Z.lt_ge_cases s 0) as [L|L].
  - rewrite (Z.max_r s 0) in * by lia. change (2 ^ 0) with 1 in *. nia.
  - rewrite (Z.max_r (- s) 0) in * by lia. change (2 ^ 0) with 1 in *.
    assert (2 ^ Z.max s 0 <= Float.rne (a * 2 ^ Z.max s 0) (b * 1)).
    { apply rne_ge_int; nia. }
    lia.
Qed.

Lemma of_int_ge_1 n : 1 <= n → (1 <= Float.of_int n)%Q.
Proof.
  intros Hn. unfold Float.of_int, Float.round, inject_Z; cbn [Qnum Qden].
  destruct n as [|p|p]; try lia. apply round_pos_ge_1; lia.
Qed.

(** The float [1.0 / n] is at most [1] for a count [n] of at least one. *)
Lemma inv_le_1 n : 1 <= n → (Float.div 1 (Float.of_int n) <= 1)%Q.
Proof.
  intros Hn. pose proof (of_int_ge_1 n Hn) as G.
  unfold Float.div.
  assert (P : (0 < Float.of_int n)%Q) by (eapply Qlt_le_trans; [|exact G]; reflexivity).
  assert (Q1 : (0 < 1 / Float.of_int n)%Q).
  { apply Qlt_shift_div_l; [exact P|]. rewrite Qmult_0_l. reflexivity. }
  assert (Q2 : (1 / Float.of_int n <= 1)%Q).
  { apply Qle_shift_div_r; [exact P|]. rewrite Qmult_1_l. exact G. }
  unfold Float.round. destruct (1 / Float.of_int n)%Q as [[|a|a] b] eqn:E;
    cbn [Qnum Qden]; try (unfold Qlt in Q1; cbn in Q1; lia).
  apply round_pos_le_1; [lia|]. unfold Qle in Q2. cbn in Q2. lia.
Qed.

End FloatBounds.

(** ** More on DetermineTargetPercent *)

Module DetermineTargetPercentMore.
Import FloatFacts FloatBounds PortfolioModel PercentNotions DetermineTargetPercentFacts.

(** X1.  The keys of the dictionary that [DetermineTargetPercent] returns
    are the insights of the list: [percents[x]] is defined exactly when [x]
    is in [lastActiveInsights], and raises [KeyError] for any other
    insight. *)
Theorem DetermineTargetPercent_keys_iff (lastActiveInsights : list Insight.t)
    (x : Insight.t) :
  is_Some (DetermineTargetPercent lastActiveInsights !! x) ↔ x ∈ lastActiveInsights.
Proof.
  destruct (decide (x ∈ lastActiveInsights)) as [Hin|Hnin].
  - rewrite (DetermineTargetPercent_lookup _ _ Hin). split; [tauto|eauto].
  - rewrite (DetermineTargetPercent_dom _ _ Hnin). split; [intros [? ?]; discriminate|tauto].
Qed.

Lemma count_Permutation (l l' : list Insight.t) : l ≡ₚ l' → count l = count l'.
Proof.
  intros Hp. rewrite !count_length. f_equal.
  apply Permutation_length. now apply filter_Permutation.
Qed.

(** X2.  The result does not depend on the order of the insights: two lists
    with the same insights, each as often as in the other, give the same
    dictionary. *)
Theorem DetermineTargetPercent_Permutation (l l' : list Insight.t) :
  l ≡ₚ l' → DetermineTargetPercent l = DetermineTargetPercent l'.
Proof.
  intros Hp. apply map_eq. intros x. unfold DetermineTargetPercent.
  rewrite (fill_lookup (percent l) l ∅ x), (fill_lookup (percent l') l' ∅ x).
  unfold percent. rewrite (count_Permutation l l' Hp).
  destruct (decide (x ∈ l)) as [Hin|Hnin].
  - rewrite decide_True by (now rewrite <- Hp). reflexivity.
  - rewrite decide_False by (now rewrite <- Hp). reflexivity.
Qed.

Lemma DetermineTargetPercent_Permutation_witness :
  [Samples.up_AAA; Samples.down_BBB] ≡ₚ [Samples.down_BBB; Samples.up_AAA]
  ∧ DetermineTargetPercent [Samples.up_AAA; Samples.down_BBB]
    = DetermineTargetPercent [Samples.down_BBB; Samples.up_AAA].
Proof.
  assert (Hp : [Samples.up_AAA; Samples.down_BBB] ≡ₚ [Samples.down_BBB; Samples.up_AAA])
    by apply Permutation_swap.
  split; [exact Hp|].
  exact (DetermineTargetPercent_Permutation _ _ Hp).
Defined.

Lemma percent_le_1 (l : list Insight.t) : (percent l <= 1)%Q.
Proof.
  unfold percent. destruct (Z.eqb_spec (count l) 0) as [E|E]; [discriminate|].
  apply inv_le_1. pose proof (count_nonneg l). lia.
Qed.

(** The value stored under an insight is within [[-1, 1]]. *)
Lemma weight_bounded (l : list Insight.t) (x : Insight.t) :
  (-1 <= weight (percent l) x)%Q ∧ (weight (percent l) x <= 1)%Q.
Proof.
  pose proof (percent_nonneg l) as L. pose proof (percent_le_1 l) as U.
  rewrite weight_value. destruct (Insight.Direction x); cbn [direction_value].
  - assert (E : (inject_Z (-1) * percent l == - percent l)%Q) by ring.
    rewrite E. split.
    + apply Qopp_le_compat in U. exact U.
    + apply (Qle_trans _ 0); [|discriminate].
      apply Qopp_le_compat in L. exact L.
  - rewrite Qmult_0_l. split; discriminate.
  - rewrite Qmult_1_l. split; [|exact U].
    apply (Qle_trans _ 0); [discriminate|exact L].
Qed.

(** X3.  No percent is outside [[-1, 1]]: the model never asks for more
    than the whole portfolio in one security, long or short. *)
Theorem DetermineTargetPercent_bounded (lastActiveInsights : list Insight.t)
    (x : Insight.t) (p : Q) :
  DetermineTargetPercent lastActiveInsights !! x = Some p →
  (-1 <= p)%Q ∧ (p <= 1)%Q.
Proof.
  intros Hp. destruct (decide (x ∈ lastActiveInsights)) as [Hin|Hnin].
  - rewrite (DetermineTargetPercent_lookup _ _ Hin) in Hp.
    injection Hp as <-. apply weight_bounded.
  - rewrite (DetermineTargetPercent_dom _ _ Hnin) in Hp. discriminate.
Qed.

Lemma DetermineTargetPercent_bounded_witness :
  DetermineTargetPercent [Samples.up_AAA; Samples.down_BBB; Samples.flat_CCC]
    !! Samples.down_BBB
  = Some (Float.mul (Float.of_int (-1)) (Float.div 1 (Float.of_int 2)))
  ∧ (-1 <= Float.mul (Float.of_int (-1)) (Float.div 1 (Float.of_int 2)))%Q
  ∧ (Float.mul (Float.of_int (-1)) (Float.div 1 (Float.of_int 2)) <= 1)%Q.
Proof.
  assert (H1 : DetermineTargetPercent
                 [Samples.up_AAA; Samples.down_BBB; Samples.flat_CCC]
                 !! Samples.down_BBB
               = Some (Float.mul (Float.of_int (-1)) (Float.div 1 (Float.of_int 2))))
    by (vm_compute; reflexivity).
  split; [exact H1|].
  exact (DetermineTargetPercent_bounded _ _ _ H1).
Defined.

End DetermineTargetPercentMore.

(** ** The last active insight of each symbol *)

(** The insights of one symbol stand together in the list. *)
Definition contiguous {A K : Type} (key : A → K) (l : list A) : Prop :=
  ∀ l1 x l2 y l3, l = l1 ++ x :: l2 ++ y :: l3 → key x = key y →
    ∀ z, z ∈ l2 → key z = key x.

Module LastActiveInsights.
Import PortfolioModel PercentNotions DetermineTargetPercentFacts CreateTargetsFacts.

Lemma elem_of_concat {A : Type} (x : A) (ls : list (list A)) :
  x ∈ concat ls ↔ ∃ l, x ∈ l ∧ l ∈ ls.
Proof.
  induction ls as [|l ls IH]; cbn [concat].
  - split; [intros Hx; inversion Hx|intros (l & _ & Hl); inversion Hl].
  - rewrite elem_of_app, IH. split.
    + intros [Hx|(l' & Hx & Hl)]; [exists l; split; [exact Hx|left]|].
      exists l'. split; [exact Hx|now right].
    + intros (l' & Hx & Hl). apply elem_of_cons in Hl. destruct Hl as [->|Hl]; [now left|].
      right. eauto.
Qed.

Section Groupby.
Context {A K : Type} `{EqDecision K} (key : A → K).

(** The runs, one after the other, are the list. *)
Lemma groupby_concat (l : list A) : concat (map snd (Py.groupby key l)) = l.
Proof.
  induction l as [|x l IH]; [reflexivity|]. cbn [Py.groupby].
  destruct (Py.groupby key l) as [|[k g] rest].
  - cbn in IH. subst l. reflexivity.
  - destruct (decide (key x = k)); cbn in *; now rewrite IH.
Qed.

(** Every element of a run has the key of the run. *)
Lemma groupby_key (l : list A) :
  Forall (λ kg, Forall (λ x, key x = fst kg) (snd kg)) (Py.groupby key l).
Proof.
  induction l as [|x l IH]; cbn [Py.groupby]; [constructor|].
  destruct (Py.groupby key l) as [|[k g] rest].
  - repeat constructor.
  - inversion IH as [|? ? Hg Hrest]; subst. cbn in Hg.
    destruct (decide (key x = k)) as [E|E].
    + constructor; [|assumption]. cbn. constructor; [reflexivity|].
      eapply Forall_impl; [exact Hg|]. cbn. congruence.
    + constructor; [repeat constructor|]. constructor; assumption.
Qed.

Lemma groupby_head (x : A) (l : list A) :
  ∃ g rest, Py.groupby key (x :: l) = (key x, g) :: rest.
Proof.
  cbn [Py.groupby]. destruct (Py.groupby key l) as [|[k g] rest]; [eauto|].
  destruct (decide (key x = k)); eauto.
Qed.

Lemma groupby_elem (l : list A) (x : A) :
  x ∈ l → ∃ g, (key x, g) ∈ Py.groupby key l ∧ x ∈ g.
Proof.
  intros Hin. rewrite <- (groupby_concat l) in Hin.
  apply elem_of_concat in Hin. destruct Hin as (g & Hx & Hg).
  apply list_elem_of_fmap in Hg. destruct Hg as ([k g'] & -> & Hkg). cbn in Hx.
  pose proof (groupby_key l) as F. rewrite Forall_forall in F.
  specialize (F _ Hkg). cbn in F. rewrite Forall_forall in F.
  rewrite (F x Hx). eauto.
Qed.

Lemma groupby_key_elem (l : list A) (k : K) :
  k ∈ map fst (Py.groupby key l) → ∃ y, y ∈ l ∧ key y = k.
Proof.
  intros Hk. apply list_elem_of_fmap in Hk. destruct Hk as ([k' g] & -> & Hkg). cbn.
  pose proof (groupby_nonempty key l) as N. rewrite Forall_forall in N.
  specialize (N _ Hkg). cbn in N. destruct g as [|y g]; [congruence|].
  exists y. split.
  - rewrite <- (groupby_concat l). apply elem_of_concat. exists (y :: g).
    split; [left|]. apply list_elem_of_fmap. exists (k', y :: g). tauto.
  - pose proof (groupby_key l) as F. rewrite Forall_forall in F.
    specialize (F _ Hkg). cbn in F. now inversion F.
Qed.

Lemma contiguous_tail (x : A) (l : list A) : contiguous key (x :: l) → contiguous key l.
Proof.
  intros C l1 a l2 b l3 E. apply (C (x :: l1) a l2 b l3). now rewrite E.
Qed.

(** When equal keys stand together, no key has two runs. *)
Lemma groupby_keys_NoDup (l : list A) :
  contiguous key l → NoDup (map fst (Py.groupby key l)).
Proof.
  induction l as [|x l IH]; intros C; [constructor|].
  specialize (IH (contiguous_tail _ _ C)).
  assert (Hx : Py.groupby key l = [] ∨
               (∃ g rest, Py.groupby key l = (key x, g) :: rest) ∨
               (∃ k g rest, key x ≠ k ∧ Py.groupby key l = (k, g) :: rest)).
  { destruct (Py.groupby key l) as [|[k g] rest]; [now left|right].
    destruct (decide (key x = k)) as [<-|E]; [left|right]; eauto. }
  cbn [Py.groupby]. destruct Hx as [E|[(g & rest & E)|(k & g & rest & Hne & E)]].
  - rewrite E. cbn. apply NoDup_singleton.
  - rewrite E in *. rewrite decide_True by reflexivity. exact IH.
  - rewrite E in *. rewrite decide_False by exact Hne.
    change (NoDup (key x :: map fst ((k, g) :: rest))). constructor; [|exact IH].
    intros Hk. rewrite <- E in Hk. apply groupby_key_elem in Hk.
    destruct Hk as (y & Hy & Hky).
    destruct l as [|z l']; [inversion Hy|].
    destruct (groupby_head z l') as (g' & rest' & E'). rewrite E' in E.
    inversion E; subst k.
    apply elem_of_cons in Hy. destruct Hy as [->|Hy]; [congruence|].
    apply list_elem_of_split in Hy. destruct Hy as (l2 & l3 & ->).
    apply Hne. symmetry.
    apply (C [] x (z :: l2) y l3); [reflexivity|congruence|left].
Qed.

End Groupby.

Section Sorted.
Context {A : Type} (key : A → Z).

Lemma insert_by_Permutation (x : A) (l : list A) : Py.insert_by key x l ≡ₚ x :: l.
Proof.
  induction l as [|y l IH]; cbn [Py.insert_by]; [reflexivity|].
  destruct (key x <? key y); [reflexivity|]. rewrite IH. apply Permutation_swap.
Qed.

(** [sorted] rearranges and loses nothing. *)
Lemma sorted_Permutation (l : list A) : Py.sorted key l ≡ₚ l.
Proof.
  unfold Py.sorted.
  assert (G : ∀ acc, fold_left (λ acc x, Py.insert_by key x acc) l acc ≡ₚ acc ++ l).
  { induction l as [|x l IH]; intros acc; cbn [fold_left].
    - now rewrite app_nil_r.
    - rewrite IH, insert_by_Permutation. cbn [app]. apply Permutation_middle. }
  now rewrite G.
Qed.

(** The last element is a largest one. *)
Definition last_is_max (l : list A) : Prop :=
  l = [] ∨ ∃ m, last l = Some m ∧ ∀ z, z ∈ l → key z <= key m.

Lemma insert_by_last_is_max (x : A) (l : list A) :
  last_is_max l → last_is_max (Py.insert_by key x l).
Proof.
  induction l as [|y l IH]; intros Hl; cbn [Py.insert_by].
  - right. exists x. split; [reflexivity|]. intros z Hz.
    apply list_elem_of_singleton in Hz. subst. lia.
  - destruct Hl as [Hl|(m & Hm & Hmax)]; [discriminate|].
    destruct (Z.ltb_spec (key x) (key y)) as [Hlt|Hge].
    + right. exists m. split; [exact Hm|]. intros z Hz.
      apply elem_of_cons in Hz. destruct Hz as [->|Hz]; [|now apply Hmax].
      specialize (Hmax y ltac:(left)). lia.
    + assert (Ht : last_is_max l).
      { destruct l as [|y' l']; [now left|right]. exists m. split; [exact Hm|].
        intros z Hz. apply Hmax. now right. }
      destruct (IH Ht) as [E|(m' & Hm' & Hmax')].
      { destruct l; cbn in E; [discriminate|]. destruct (key x <? key a); discriminate. }
      right. exists m'. split.
      * destruct (Py.insert_by key x l) as [|w ws] eqn:Ei; [discriminate|exact Hm'].
      * intros z Hz. apply elem_of_cons in Hz. destruct Hz as [->|Hz]; [|now apply Hmax'].
        destruct l as [|y' l'].
        -- cbn in Hm'. inversion Hm'; subst. lia.
        -- assert (Hmi : m ∈ Py.insert_by key x (y' :: l')).
           { rewrite insert_by_Permutation. right. apply last_Some_elem_of. exact Hm. }
           specialize (Hmax' m Hmi). specialize (Hmax y ltac:(left)). lia.
Qed.

Lemma sorted_last_is_max (l : list A) : last_is_max (Py.sorted key l).
Proof.
  unfold Py.sorted.
  assert (G : ∀ acc, last_is_max acc →
                     last_is_max (fold_left (λ acc x, Py.insert_by key x acc) l acc)).
  { induction l as [|x l IH]; intros acc Ha; cbn [fold_left]; [exact Ha|].
    apply IH. now apply insert_by_last_is_max. }
  apply G. now left.
Qed.

(** [sorted(g, key)[-1]] is an element of [g] with the largest key. *)
Lemma last_sorted_max (g : list A) (y : A) :
  last (Py.sorted key g) = Some y → y ∈ g ∧ ∀ x, x ∈ g → key x <= key y.
Proof.
  intros Hy. split.
  - rewrite <- (sorted_Permutation g). now apply last_Some_elem_of.
  - intros x Hx. destruct (sorted_last_is_max g) as [E|(m & Hm & Hmax)].
    + rewrite E in Hy. discriminate.
    + rewrite Hy in Hm. inversion Hm; subst m. apply Hmax.
      now rewrite (sorted_Permutation g).
Qed.

(** [sorted] is stable, so the last element is the one that stands last in
    the input among those with the largest key. *)
Lemma insert_by_largest (x : A) (l : list A) :
  (∀ z, z ∈ l → key z <= key x) → Py.insert_by key x l = l ++ [x].
Proof.
  induction l as [|y l IH]; intros Hmax; cbn [Py.insert_by app]; [reflexivity|].
  destruct (Z.ltb_spec (key x) (key y)) as [Hlt|_].
  - specialize (Hmax y ltac:(left)). lia.
  - rewrite IH; [reflexivity|]. intros z Hz. apply Hmax. now right.
Qed.

Lemma insert_by_smaller (x m : A) (l : list A) :
  key x < key m → Py.insert_by key x (l ++ [m]) = Py.insert_by key x l ++ [m].
Proof.
  intros Hlt. induction l as [|y l IH]; cbn [Py.insert_by app].
  - now rewrite (proj2 (Z.ltb_lt _ _) Hlt).
  - destruct (key x <? key y); [reflexivity|]. now rewrite IH.
Qed.

Lemma sorted_last_largest (earlier later : list A) (m : A) :
  (∀ x, x ∈ earlier → key x <= key m) →
  (∀ x, x ∈ later → key x < key m) →
  last (Py.sorted key (earlier ++ m :: later)) = Some m.
Proof.
  intros He Hl. unfold Py.sorted. rewrite fold_left_app. cbn [fold_left].
  fold (Py.sorted key earlier). rewrite insert_by_largest.
  - generalize (Py.sorted key earlier). induction later as [|x later IH]; intros acc.
    + cbn [fold_left]. apply last_snoc.
    + cbn [fold_left]. rewrite insert_by_smaller by (apply Hl; left).
      apply IH. intros z Hz. apply Hl. now right.
  - intros z Hz. apply He. now rewrite <- (sorted_Permutation earlier).
Qed.

Lemma last_largest_exists (g : list A) :
  g ≠ [] →
  ∃ earlier m later,
    g = earlier ++ m :: later
    ∧ (∀ x, x ∈ earlier → key x <= key m)
    ∧ (∀ x, x ∈ later → key x < key m).
Proof.
  induction g as [|x g IH]; intros Hne; [congruence|].
  destruct g as [|y g].
  - exists [], x, []. split; [reflexivity|]. split; intros z Hz; inversion Hz.
  - destruct (IH ltac:(discriminate)) as (earlier & m & later & E & He & Hl).
    destruct (Z.le_gt_cases (key x) (key m)) as [Hle|Hgt].
    + exists (x :: earlier), m, later. rewrite E. split; [reflexivity|].
      split; [|exact Hl]. intros z Hz. apply elem_of_cons in Hz.
      destruct Hz as [->|Hz]; [exact Hle|now apply He].
    + exists [], x, (y :: g). split; [reflexivity|].
      split; [intros z Hz; inversion Hz|]. intros z Hz. rewrite E in Hz.
      apply elem_of_app in Hz. destruct Hz as [Hz|Hz].
      * specialize (He z Hz). lia.
      * apply elem_of_cons in Hz. destruct Hz as [->|Hz]; [lia|].
        specialize (Hl z Hz). lia.
Qed.

(** [sorted(g, key)[-1]]: where it stands in [g]. *)
Lemma last_sorted_split (g : list A) (y : A) :
  last (Py.sorted key g) = Some y →
  ∃ earlier later,
    g = earlier ++ y :: later
    ∧ (∀ x, x ∈ earlier → key x <= key y)
    ∧ (∀ x, x ∈ later → key x < key y).
Proof.
  intros Hy.
  assert (Hne : g ≠ []) by (intros ->; discriminate Hy).
  destruct (last_largest_exists g Hne) as (earlier & m & later & E & He & Hl).
  assert (Hm : last (Py.sorted key g) = Some m)
    by (rewrite E; now apply sorted_last_largest).
  rewrite Hy in Hm. inversion Hm; subst m. eauto.
Qed.

End Sorted.

(** Every kept insight is an active insight. *)
Lemma lastActiveInsights_subset (activeInsights lastActiveInsights : list Insight.t) :
  lastActiveInsights_of activeInsights = Some lastActiveInsights →
  ∀ y, y ∈ lastActiveInsights → y ∈ activeInsights.
Proof.
  unfold lastActiveInsights_of. intros E y Hy. apply mapM_Some in E.
  apply list_elem_of_lookup in Hy. destruct Hy as [i Hi].
  destruct (Forall2_lookup_r _ _ _ _ _ E Hi) as ([k g] & Hkg & Hl).
  apply last_sorted_max in Hl. destruct Hl as [Hyg _].
  rewrite <- (groupby_concat Insight.Symbol activeInsights).
  apply elem_of_concat. exists g. split; [exact Hyg|].
  apply list_elem_of_fmap. exists (k, g). split; [reflexivity|].
  apply list_elem_of_lookup. eauto.
Qed.

(** X4.  Of the active insights [CreateTargets] keeps the most recent of
    each run of one symbol.  The runs of [groupby], one after the other, are
    the list of the active insights; the kept insights are one for each run,
    in the order of the runs; and the insight kept for a run has the symbol
    of the run and stands in the run after insights that were not generated
    later and before insights that were generated earlier: it is the last
    generated insight of the run, and of several that were generated last it
    is the one that stands last. *)
Theorem lastActiveInsights_most_recent
    (activeInsights lastActiveInsights : list Insight.t) :
  lastActiveInsights_of activeInsights = Some lastActiveInsights →
  concat (map snd (Py.groupby Insight.Symbol activeInsights)) = activeInsights
  ∧ Forall2
      (λ run y,
         Insight.Symbol y = run.1
         ∧ ∃ earlier later,
             run.2 = earlier ++ y :: later
             ∧ (∀ x, x ∈ earlier →
                     Insight.GeneratedTimeUtc x <= Insight.GeneratedTimeUtc y)
             ∧ (∀ x, x ∈ later →
                     Insight.GeneratedTimeUtc x < Insight.GeneratedTimeUtc y))
      (Py.groupby Insight.Symbol activeInsights) lastActiveInsights.
Proof.
  intros E. split; [apply groupby_concat|].
  unfold lastActiveInsights_of in E. apply mapM_Some in E.
  pose proof (groupby_key Insight.Symbol activeInsights) as F.
  induction E as [|[k g] y groups kept Hy E IH]; [constructor|].
  inversion F as [|? ? Fg Frest]; subst. constructor; [|exact (IH Frest)].
  cbn [fst snd] in *. destruct (last_sorted_split _ _ _ Hy) as (earlier & later & Eg & He & Hl).
  split; [|eauto]. rewrite Forall_forall in Fg. apply Fg.
  rewrite Eg. apply elem_of_app. right. left.
Qed.

(** Three insights for [AAA], generated at the times 10, 20 and 20, and one
    for [BBB]: of the two insights of time 20 the second is kept. *)
Lemma lastActiveInsights_most_recent_witness :
  lastActiveInsights_of
    [Insight.mk 1 Samples.AAA Up 10 100; Insight.mk 6 Samples.AAA Down 20 100;
     Insight.mk 7 Samples.AAA Up 20 100; Samples.down_BBB]
  = Some [Insight.mk 7 Samples.AAA Up 20 100; Samples.down_BBB]
  ∧ concat (map snd (Py.groupby Insight.Symbol
                       [Insight.mk 1 Samples.AAA Up 10 100;
                        Insight.mk 6 Samples.AAA Down 20 100;
                        Insight.mk 7 Samples.AAA Up 20 100; Samples.down_BBB]))
    = [Insight.mk 1 Samples.AAA Up 10 100; Insight.mk 6 Samples.AAA Down 20 100;
       Insight.mk 7 Samples.AAA Up 20 100; Samples.down_BBB]
  ∧ Forall2
      (λ run y,
         Insight.Symbol y = run.1
         ∧ ∃ earlier later,
             run.2 = earlier ++ y :: later
             ∧ (∀ x, x ∈ earlier →
                     Insight.GeneratedTimeUtc x <= Insight.GeneratedTimeUtc y)
             ∧ (∀ x, x ∈ later →
                     Insight.GeneratedTimeUtc x < Insight.GeneratedTimeUtc y))
      (Py.groupby Insight.Symbol
         [Insight.mk 1 Samples.AAA Up 10 100; Insight.mk 6 Samples.AAA Down 20 100;
          Insight.mk 7 Samples.AAA Up 20 100; Samples.down_BBB])
      [Insight.mk 7 Samples.AAA Up 20 100; Samples.down_BBB].
Proof.
  assert (H1 : lastActiveInsights_of
                 [Insight.mk 1 Samples.AAA Up 10 100; Insight.mk 6 Samples.AAA Down 20 100;
                  Insight.mk 7 Samples.AAA Up 20 100; Samples.down_BBB]
               = Some [Insight.mk 7 Samples.AAA Up 20 100; Samples.down_BBB])
    by (vm_compute; reflexivity).
  split; [exact H1|].
  exact (lastActiveInsights_most_recent _ _ H1).
Defined.

(** An insight generated later is kept wherever it stands in its run. *)
Example lastActiveInsights_latest_first :
  lastActiveInsights_of
    [Insight.mk 6 Samples.AAA Down 20 100; Insight.mk 1 Samples.AAA Up 10 100;
     Insight.mk 7 Samples.AAA Up 15 100; Samples.down_BBB]
  = Some [Insight.mk 6 Samples.AAA Down 20 100; Samples.down_BBB].
Proof. vm_compute. reflexivity. Qed.

(** X5.  When the insights of one symbol stand together in the list of the
    active insights, [CreateTargets] keeps one insight for each symbol: no
    two kept insights have the same symbol. *)
Theorem lastActiveInsights_one_per_symbol
    (activeInsights lastActiveInsights : list Insight.t) :
  contiguous Insight.Symbol activeInsights →
  lastActiveInsights_of activeInsights = Some lastActiveInsights →
  NoDup (map Insight.Symbol lastActiveInsights).
Proof.
  intros C E. unfold lastActiveInsights_of in E. apply mapM_Some in E.
  pose proof (groupby_keys_NoDup Insight.Symbol activeInsights C) as N.
  pose proof (groupby_key Insight.Symbol activeInsights) as F.
  assert (Hs : map Insight.Symbol lastActiveInsights
               = map fst (Py.groupby Insight.Symbol activeInsights)).
  { clear N C. induction E as [|[k g] y groups L Hy E IH]; [reflexivity|].
    inversion F as [|? ? Fg Frest]; subst. cbn [map]. rewrite (IH Frest). f_equal.
    apply last_sorted_max in Hy. destruct Hy as [Hyg _]. cbn in Fg.
    rewrite Forall_forall in Fg. cbn. now apply Fg. }
  now rewrite Hs.
Qed.

Lemma lastActiveInsights_one_per_symbol_witness :
  (contiguous Insight.Symbol
     [Samples.up_AAA; Insight.mk 6 Samples.AAA Down 20 100; Samples.down_BBB]
   ∧ lastActiveInsights_of
       [Samples.up_AAA; Insight.mk 6 Samples.AAA Down 20 100; Samples.down_BBB]
     = Some [Insight.mk 6 Samples.AAA Down 20 100; Samples.down_BBB])
  ∧ NoDup (map Insight.Symbol [Insight.mk 6 Samples.AAA Down 20 100; Samples.down_BBB]).
Proof.
  assert (H1 : contiguous Insight.Symbol
                 [Samples.up_AAA; Insight.mk 6 Samples.AAA Down 20 100; Samples.down_BBB]).
  { intros l1 x l2 y l3 E K z Hz.
    destruct l1 as [|a [|b [|c l1]]]; cbn in E.
    - destruct l2 as [|d [|e l2]]; cbn in E.
      + inversion Hz.
      + inversion E; subst. discriminate K.
      + inversion E; subst. destruct l2; discriminate.
    - destruct l2 as [|d l2]; cbn in E.
      + inversion Hz.
      + inversion E; subst. destruct l2; discriminate.
    - inversion E; subst. destruct l2; discriminate.
    - inversion E; subst. destruct l1; discriminate. }
  assert (H2 : lastActiveInsights_of
                 [Samples.up_AAA; Insight.mk 6 Samples.AAA Down 20 100; Samples.down_BBB]
               = Some [Insight.mk 6 Samples.AAA Down 20 100; Samples.down_BBB])
    by (vm_compute; reflexivity).
  split; [split; [exact H1|exact H2]|].
  exact (lastActiveInsights_one_per_symbol _ _ H1 H2).
Defined.

(** The other case: [AAA] has two runs, and both of its insights are
    kept, so that [AAA] is counted twice and every percent is one third. *)
Example lastActiveInsights_two_runs :
  lastActiveInsights_of
    [Samples.up_AAA; Samples.down_BBB; Insight.mk 7 Samples.AAA Up 15 100]
  = Some [Samples.up_AAA; Samples.down_BBB; Insight.mk 7 Samples.AAA Up 15 100]
  ∧ count [Samples.up_AAA; Samples.down_BBB; Insight.mk 7 Samples.AAA Up 15 100] = 3.
Proof. split; vm_compute; reflexivity. Qed.

End LastActiveInsights.

(** ** The life of a portfolio construction model *)

(** [main.py], [Initialize]: the inputs of the user and the two models that
    are built from them.  [rebalancingParam = False] is [0];
    [filterFineData] goes to the base class of the engine.  The portfolio
    construction model is what its constructor returns. *)
Module Main.

Definition filterFineData : bool := true.
Definition rebalancingParam : Z := 0.

Definition universeSelection : UniverseModel.t := UniverseModel.init.

Definition portfolioConstruction `{Host} : option PortfolioModel.t :=
  PortfolioModel.init rebalancingParam.

End Main.

Module PortfolioLife.
Import PortfolioModel PercentNotions TargetNotions.

Section Life.
Context `{Host}.

(** The states of a model built with [rebalancingParam]: the state after
    the constructor, when it returned, and every state after a call of
    [CreateTargets] that returned or of [OnSecuritiesChanged]. *)
Inductive reachable (rebalancingParam : Z) : PortfolioModel.t → Prop :=
| reachable_init self :
    init rebalancingParam = Some self →
    reachable rebalancingParam self
| reachable_CreateTargets self algorithm insights targets self' :
    reachable rebalancingParam self →
    CreateTargets self algorithm insights = Some (targets, self') →
    reachable rebalancingParam self'
| reachable_OnSecuritiesChanged self algorithm changes :
    reachable rebalancingParam self →
    reachable rebalancingParam (OnSecuritiesChanged self algorithm changes).

(** The insight asks for something else than what the portfolio holds: the
    three conditions of the loop of [ShouldCreateTargets]. *)
Definition disagrees (algorithm : Algorithm) (insight : Insight.t) : Prop :=
  let holding := Portfolio algorithm (Insight.Symbol insight) in
  (SecurityHolding.Invested holding = false ∧ Insight.Direction insight ≠ Flat)
  ∨ (SecurityHolding.IsLong holding = true ∧ Insight.Direction insight ≠ Up)
  ∨ (SecurityHolding.IsShort holding = true ∧ Insight.Direction insight ≠ Down).

End Life.
End PortfolioLife.

Module CreateTargetsMore.
Import FloatFacts PortfolioModel PercentNotions TargetNotions.
Import DetermineTargetPercentFacts DetermineTargetPercentMore CreateTargetsFacts.
Import LastActiveInsights PortfolioLife.

Section More.
Context `{Host}.

(** What a call that returned past the early return has done. *)
Lemma CreateTargets_inv (self : PortfolioModel.t) (algorithm : Algorithm)
    (insights : list Insight.t) (targets : list PortfolioTarget.t)
    (self' : PortfolioModel.t) :
  CreateTargets self algorithm insights = Some (targets, self') →
  nothing_to_do self algorithm insights = false →
  let now := UtcTime algorithm in
  let ic := fold_left Add insights (insightCollection self) in
  let deselected :=
    match removedSymbols self with
    | Some removed => universeDeselectionTargets removed
    | None => []
    end in
  let expired := (RemoveExpiredInsights ic now).1 in
  let ic' := (RemoveExpiredInsights ic now).2 in
  ∃ lastActiveInsights,
    lastActiveInsights_of (GetActiveInsights ic now) = Some lastActiveInsights
    ∧ targets
      = (if ShouldCreateTargets self algorithm lastActiveInsights then
           let percents := DetermineTargetPercent lastActiveInsights in
           deselected
           ++ percent_targets algorithm percents lastActiveInsights
           ++ expiredTargets ic' now
                (error_symbols algorithm percents lastActiveInsights ∅) expired
         else deselected ++ expiredTargets ic' now ∅ expired)
    ∧ insightCollection self' = ic'
    ∧ removedSymbols self' = None
    ∧ nextExpiryTime self' = default UTCMIN (GetNextExpiryTime ic')
    ∧ rebalancing self' = rebalancing self
    ∧ rebalancingFunc self' = rebalancingFunc self
    ∧ (if ShouldCreateTargets self algorithm lastActiveInsights
          && truthy (rebalancing self)
       then ∃ f, rebalancingFunc self = Some f ∧ f now = Some (rebalancingTime self')
       else rebalancingTime self' = rebalancingTime self).
Proof.
  intros E Hgo. cbn zeta. unfold CreateTargets in E.
  fold (nothing_to_do self algorithm insights) in E. rewrite Hgo in E.
  destruct (lastActiveInsights_of _) as [l|] eqn:Hl; [|discriminate].
  cbn [mbind option_bind] in E. exists l. split; [reflexivity|].
  destruct (RemoveExpiredInsights (fold_left Add insights (insightCollection self))
              (UtcTime algorithm)) as [expired ic'] eqn:Er.
  cbn [fst snd].
  assert (Ht : ∀ l : list PortfolioTarget.t,
             match removedSymbols self with
             | Some removed => [] ++ universeDeselectionTargets removed
             | None => []
             end ++ l
             = match removedSymbols self with
               | Some removed => universeDeselectionTargets removed
               | None => []
               end ++ l).
  { intros l0. destruct (removedSymbols self); reflexivity. }
  assert (Hd : ∀ ic0 : InsightCollection,
             match GetNextExpiryTime ic0 with
             | Some time => time
             | None => UTCMIN
             end = default UTCMIN (GetNextExpiryTime ic0)).
  { intros ic0. destruct (GetNextExpiryTime ic0); reflexivity. }
  destruct (ShouldCreateTargets self algorithm l).
  - rewrite (percent_loop_eq _ _ _ _ _ (DetermineTargetPercent_keys l)) in E.
    cbn [mbind option_bind] in E.
    destruct (truthy (rebalancing self)) eqn:Et.
    + destruct (rebalancingFunc self) as [f|] eqn:Hf; [|discriminate].
      cbn [mbind option_bind] in E.
      destruct (f (UtcTime algorithm)) as [time|] eqn:Hf'; [|discriminate].
      cbn [mbind option_bind] in E. inversion E; subst; cbn.
      rewrite <- ?app_assoc, ?Ht, Hd. repeat split; eauto.
    + cbn [mbind option_bind] in E. inversion E; subst; cbn.
      rewrite <- ?app_assoc, ?Ht, Hd. repeat split; eauto.
  - cbn [mbind option_bind] in E. inversion E; subst; cbn.
    rewrite ?Ht, Hd. repeat split; eauto.
Qed.

Lemma nothing_to_do_true (self : PortfolioModel.t) (algorithm : Algorithm)
    (insights : list Insight.t) :
  nothing_to_do self algorithm insights = true →
  insights = []
  ∧ UtcTime algorithm <= nextExpiryTime self
  ∧ removedSymbols self = None
  ∧ CreateTargets self algorithm insights = Some ([], self).
Proof.
  intros Hn. pose proof Hn as Hn'. unfold nothing_to_do in Hn.
  rewrite !andb_true_iff in Hn. destruct Hn as [[H1 H2] H3].
  split; [destruct insights; [reflexivity|discriminate]|].
  split; [now apply Z.leb_le|]. split; [now apply bool_decide_eq_true in H3|].
  unfold CreateTargets. fold (nothing_to_do self algorithm insights). now rewrite Hn'.
Qed.

(** X6.  After every call of [CreateTargets] that returns, [removedSymbols]
    is [None]: the removed symbols are flattened once, by the first call
    after the notification, and never again. *)
Theorem CreateTargets_clears_removedSymbols (self : PortfolioModel.t)
    (algorithm : Algorithm) (insights : list Insight.t)
    (targets : list PortfolioTarget.t) (self' : PortfolioModel.t) :
  CreateTargets self algorithm insights = Some (targets, self') →
  removedSymbols self' = None.
Proof.
  intros E. destruct (nothing_to_do self algorithm insights) eqn:Hn.
  - destruct (nothing_to_do_true _ _ _ Hn) as (_ & _ & Hr & E').
    rewrite E' in E. now inversion E; subst.
  - destruct (CreateTargets_inv _ _ _ _ _ E Hn) as (l & _ & _ & _ & Hr & _). exact Hr.
Qed.

(** X7.  A second call at the same time without new insights does nothing,
    provided the next expiry that the first call stored is not in the past:
    it returns the empty list and leaves the model as it is. *)
Theorem CreateTargets_again (self : PortfolioModel.t) (algorithm : Algorithm)
    (insights : list Insight.t) (targets : list PortfolioTarget.t)
    (self' : PortfolioModel.t) :
  CreateTargets self algorithm insights = Some (targets, self') →
  UtcTime algorithm <= nextExpiryTime self' →
  CreateTargets self' algorithm [] = Some ([], self').
Proof.
  intros E Ht.
  assert (Hr : removedSymbols self' = None).
  { destruct (nothing_to_do self algorithm insights) eqn:Hn.
    - destruct (nothing_to_do_true _ _ _ Hn) as (_ & _ & Hr & E').
      rewrite E' in E. now inversion E; subst.
    - now destruct (CreateTargets_inv _ _ _ _ _ E Hn) as (l & _ & _ & _ & Hr & _). }
  unfold CreateTargets. cbn [length Nat.eqb andb].
  rewrite (proj2 (Z.leb_le _ _) Ht), bool_decide_true by exact Hr. reflexivity.
Qed.

(** Where the targets of each of the three stages come from. *)
Lemma deselected_elem (removedSymbols : option (list Symbol.t))
    (target : PortfolioTarget.t) :
  target ∈ match removedSymbols with
           | Some removed => universeDeselectionTargets removed
           | None => []
           end →
  ∃ removed symbol,
    removedSymbols = Some removed ∧ symbol ∈ removed
    ∧ target = PortfolioTarget.mk symbol 0.
Proof.
  destruct removedSymbols as [removed|]; [|intros Hx; inversion Hx].
  intros Hx. unfold universeDeselectionTargets in Hx.
  apply list_elem_of_fmap in Hx. destruct Hx as (symbol & -> & Hs). eauto.
Qed.

Lemma expiredTargets_elem (ic : InsightCollection) (now : DateTime)
    (errorSymbols : gmap Symbol.t Symbol.t) (expired : list Insight.t)
    (target : PortfolioTarget.t) :
  target ∈ expiredTargets ic now errorSymbols expired →
  ∃ insight,
    insight ∈ expired
    ∧ HasActiveInsights ic (Insight.Symbol insight) now = false
    ∧ target = PortfolioTarget.mk (Insight.Symbol insight) 0.
Proof.
  intros Hx. unfold expiredTargets in Hx.
  apply list_elem_of_omap in Hx. destruct Hx as ([k g] & Hkg & Hk).
  destruct (HasActiveInsights ic k now) eqn:Ha; cbn in Hk; [discriminate|].
  destruct (bool_decide _); cbn in Hk; [discriminate|]. inversion Hk; subst.
  assert (Hkey : k ∈ map fst (Py.groupby Insight.Symbol expired)).
  { apply list_elem_of_fmap. exists (k, g). tauto. }
  apply groupby_key_elem in Hkey. destruct Hkey as (y & Hy & <-). eauto.
Qed.

Lemma percent_targets_elem (algorithm : Algorithm) (l : list Insight.t)
    (target : PortfolioTarget.t) :
  target ∈ percent_targets algorithm (DetermineTargetPercent l) l →
  ∃ insight p,
    insight ∈ l ∧ (-1 <= p)%Q ∧ (p <= 1)%Q
    ∧ Percent algorithm (Insight.Symbol insight) p = Some target.
Proof.
  intros Hx. unfold percent_targets in Hx.
  apply list_elem_of_omap in Hx. destruct Hx as (insight & Hi & Hp).
  unfold target_of in Hp. rewrite (DetermineTargetPercent_lookup _ _ Hi) in Hp.
  cbn in Hp. exists insight, (weight (percent l) insight).
  destruct (weight_bounded l insight) as [L U]. tauto.
Qed.

(** X8.  Every target of the returned list has a reason: it is the flatten
    target of a symbol of [removedSymbols], or the flatten target of the
    symbol of an expired insight that has no active insight left, or what
    [PortfolioTarget.Percent] returned for an active insight and a percent
    within [[-1, 1]]. *)
Theorem CreateTargets_provenance (self : PortfolioModel.t) (algorithm : Algorithm)
    (insights : list Insight.t) (targets : list PortfolioTarget.t)
    (self' : PortfolioModel.t) (target : PortfolioTarget.t) :
  CreateTargets self algorithm insights = Some (targets, self') →
  target ∈ targets →
  let now := UtcTime algorithm in
  let ic := fold_left Add insights (insightCollection self) in
  (∃ removed symbol,
     removedSymbols self = Some removed ∧ symbol ∈ removed
     ∧ target = PortfolioTarget.mk symbol 0)
  ∨ (∃ insight,
       insight ∈ (RemoveExpiredInsights ic now).1
       ∧ HasActiveInsights (RemoveExpiredInsights ic now).2
                           (Insight.Symbol insight) now = false
       ∧ target = PortfolioTarget.mk (Insight.Symbol insight) 0)
  ∨ (∃ insight p,
       insight ∈ GetActiveInsights ic now
       ∧ (-1 <= p)%Q ∧ (p <= 1)%Q
       ∧ Percent algorithm (Insight.Symbol insight) p = Some target).
Proof.
  intros E Hin. cbn zeta. destruct (nothing_to_do self algorithm insights) eqn:Hn.
  { destruct (nothing_to_do_true _ _ _ Hn) as (_ & _ & _ & E').
    rewrite E' in E. inversion E; subst. inversion Hin. }
  destruct (CreateTargets_inv _ _ _ _ _ E Hn) as (l & Hl & Ht & _).
  subst targets. destruct (ShouldCreateTargets self algorithm l).
  - cbn zeta in Hin. rewrite !elem_of_app in Hin. destruct Hin as [Hx|[Hx|Hx]].
    + left. now apply deselected_elem.
    + right. right. apply percent_targets_elem in Hx.
      destruct Hx as (insight & p & Hi & Hb).
      exists insight, p. split; [|exact Hb].
      now apply (lastActiveInsights_subset _ _ Hl).
    + right. left. now apply expiredTargets_elem in Hx.
  - rewrite elem_of_app in Hin. destruct Hin as [Hx|Hx].
    + left. now apply deselected_elem.
    + right. left. now apply expiredTargets_elem in Hx.
Qed.

End More.
End CreateTargetsMore.

Module PortfolioLifeFacts.
Import FloatFacts PortfolioModel PercentNotions TargetNotions.
Import DetermineTargetPercentFacts CreateTargetsFacts CreateTargetsClaims.
Import LastActiveInsights PortfolioLife CreateTargetsMore.

Section Facts.
Context `{Host}.

(** The two attributes that only the constructor sets stay as it set them. *)
Lemma reachable_rebalancing (rebalancingParam : Z) (self : PortfolioModel.t) :
  reachable rebalancingParam self →
  ∃ self0,
    init rebalancingParam = Some self0
    ∧ rebalancing self = rebalancing self0
    ∧ rebalancingFunc self = rebalancingFunc self0.
Proof.
  induction 1 as [self E0|self algorithm insights targets self' _ (self0 & E0 & IH1 & IH2) E
                  |self algorithm changes _ IH].
  - eauto.
  - destruct (CreateTargets_keeps_rebalancing _ _ _ _ _ E) as [E1 E2].
    exists self0. rewrite E1, E2. tauto.
  - exact IH.
Qed.

(** A model built with a positive number of days adds them to the time it
    is given; a model built with [False] has no rebalancing. *)
Lemma reachable_cases (rebalancingParam : Z) (self : PortfolioModel.t) :
  0 <= rebalancingParam →
  reachable rebalancingParam self →
  (0 < rebalancingParam
   ∧ rebalancing self = 1
   ∧ rebalancingFunc self
     = Some (λ dt, datetime_add dt (rebalancingParam * 86400000000)))
  ∨ (rebalancing self = 0 ∧ rebalancingFunc self = None).
Proof.
  intros Hp Hr. destruct (reachable_rebalancing _ _ Hr) as (self0 & E0 & E1 & E2).
  rewrite E1, E2.
  destruct (init_rebalancing _ _ E0) as [(Hpos & R1 & R2)|(Hneg & R1 & R2)].
  - left. split; [lia|]. tauto.
  - right. rewrite R1. split; [lia|exact R2].
Qed.

(** The sum of a [datetime] and a period that ends by [datetime.max]. *)
Lemma datetime_add_in_range (dt : DateTime) (delta : Z) :
  UTCMIN <= dt + delta <= DATETIME_MAX → datetime_add dt delta = Some (dt + delta).
Proof.
  intros [L U]. unfold datetime_add.
  now rewrite (proj2 (Z.leb_le _ _) L), (proj2 (Z.leb_le _ _) U).
Qed.

Lemma datetime_add_overflow (dt : DateTime) (delta : Z) :
  DATETIME_MAX < dt + delta → datetime_add dt delta = None.
Proof.
  intros U. unfold datetime_add.
  now rewrite (proj2 (Z.leb_gt _ _) U), andb_false_r.
Qed.

Lemma reachable_can_rebalance (rebalancingParam : Z) (self : PortfolioModel.t)
    (now : DateTime) :
  0 <= rebalancingParam →
  reachable rebalancingParam self →
  UTCMIN <= now →
  now + rebalancingParam * 86400000000 <= DATETIME_MAX →
  can_rebalance self now.
Proof.
  intros Hp Hr L U Ht.
  destruct (reachable_cases _ _ Hp Hr) as [(Hpos & R1 & R2)|(R1 & R2)].
  - eexists. split; [exact R2|]. cbn beta.
    rewrite datetime_add_in_range; [eauto|]. unfold UTCMIN in *. lia.
  - rewrite R1 in Ht. discriminate.
Qed.

(** X9.  A model that was built with [False] or with a number of days that
    is not negative does not raise in [CreateTargets] as long as the next
    rebalancing time is a [datetime]: in every state the model can reach, for
    every list of insights and every time of the engine that is a [datetime]
    and is followed, that many days later, by a time not after
    [datetime.max], the call returns a list of targets. *)
Theorem CreateTargets_never_raises (rebalancingParam : Z) (self : PortfolioModel.t)
    (algorithm : Algorithm) (insights : list Insight.t) :
  0 <= rebalancingParam →
  reachable rebalancingParam self →
  UTCMIN <= UtcTime algorithm →
  UtcTime algorithm + rebalancingParam * 86400000000 <= DATETIME_MAX →
  ∃ targets self', CreateTargets self algorithm insights = Some (targets, self').
Proof.
  intros Hp Hr L U. pose proof (reachable_can_rebalance _ _ _ Hp Hr L U) as W.
  destruct (nothing_to_do self algorithm insights) eqn:Hn.
  - destruct (nothing_to_do_true _ _ _ Hn) as (_ & _ & _ & E). eauto.
  - destruct (CreateTargets_run self algorithm insights W Hn) as (l & self' & _ & _ & _ & E).
    eauto.
Qed.

(** A rebalancing that is due makes [ShouldCreateTargets] say yes. *)
Lemma ShouldCreateTargets_due (self : PortfolioModel.t) (algorithm : Algorithm)
    (l : list Insight.t) :
  truthy (rebalancing self) = true →
  rebalancingTime self <= UtcTime algorithm →
  ShouldCreateTargets self algorithm l = true.
Proof.
  intros Ht Hdue. unfold ShouldCreateTargets.
  now rewrite Ht, (proj2 (Z.leb_le _ _) Hdue).
Qed.

(** What happens past the early return when a rebalancing is due: the call
    returns what [rebalancingFunc] returns, or raises because
    [rebalancingFunc] is missing or raises. *)
Lemma CreateTargets_due (self : PortfolioModel.t) (algorithm : Algorithm)
    (insights : list Insight.t) :
  truthy (rebalancing self) = true →
  rebalancingTime self <= UtcTime algorithm →
  nothing_to_do self algorithm insights = false →
  match rebalancingFunc self with
  | Some f =>
      match f (UtcTime algorithm) with
      | Some time =>
          ∃ targets self',
            CreateTargets self algorithm insights = Some (targets, self')
            ∧ rebalancingTime self' = time
      | None => CreateTargets self algorithm insights = None
      end
  | None => CreateTargets self algorithm insights = None
  end.
Proof.
  intros Ht Hdue Hn. unfold CreateTargets.
  fold (nothing_to_do self algorithm insights). rewrite Hn.
  destruct (lastActiveInsights_of_total
              (GetActiveInsights (fold_left Add insights (insightCollection self))
                 (UtcTime algorithm))) as [l Hl].
  rewrite Hl. cbn [mbind option_bind].
  rewrite (ShouldCreateTargets_due _ _ l Ht Hdue).
  rewrite (percent_loop_eq _ _ _ _ _ (DetermineTargetPercent_keys l)).
  cbn [mbind option_bind]. rewrite Ht.
  destruct (rebalancingFunc self) as [f|]; [|reflexivity]. cbn [mbind option_bind].
  destruct (f (UtcTime algorithm)) as [time|]; [|reflexivity]. cbn [mbind option_bind].
  destruct (RemoveExpiredInsights _ _) as [expired ic']. eauto.
Qed.

(** X10.  A model that was built with a negative number of days raises in
    its first call of [CreateTargets], whatever the insights: the constructor
    returns, [rebalancing] is true, a rebalancing is due since [UTCMIN], and
    [rebalancingFunc] was never set. *)
Theorem CreateTargets_negative_days_raises (rebalancingParam : Z)
    (algorithm : Algorithm) (insights : list Insight.t) :
  rebalancingParam < 0 →
  UTCMIN <= UtcTime algorithm →
  ∃ self,
    init rebalancingParam = Some self
    ∧ CreateTargets self algorithm insights = None.
Proof.
  intros Hp Ht. unfold init.
  destruct (Z.ltb_spec 0 rebalancingParam) as [L|_]; [lia|].
  eexists. split; [reflexivity|].
  match goal with |- CreateTargets ?s _ _ = None => set (self := s) end.
  assert (Hy : truthy (rebalancing self) = true).
  { subst self. cbn. unfold truthy. destruct (Z.eqb_spec rebalancingParam 0); [lia|reflexivity]. }
  assert (Hn : nothing_to_do self algorithm insights = false).
  { unfold nothing_to_do. subst self. cbn [removedSymbols].
    rewrite bool_decide_false by discriminate. apply andb_false_r. }
  exact (CreateTargets_due self algorithm insights Hy Ht Hn).
Qed.

(** X11.  A model built with a positive number of days rebalances on
    schedule: when the rebalancing time has come, and the time that many days
    after the time of the call is a [datetime], the call creates targets and
    sets the next rebalancing time to it. *)
Theorem CreateTargets_next_rebalancingTime (rebalancingParam : Z)
    (self : PortfolioModel.t) (algorithm : Algorithm) (insights : list Insight.t) :
  0 < rebalancingParam →
  reachable rebalancingParam self →
  nothing_to_do self algorithm insights = false →
  rebalancingTime self <= UtcTime algorithm →
  UTCMIN <= UtcTime algorithm →
  UtcTime algorithm + rebalancingParam * 86400000000 <= DATETIME_MAX →
  ∃ targets self',
    CreateTargets self algorithm insights = Some (targets, self')
    ∧ rebalancingTime self' = UtcTime algorithm + rebalancingParam * 86400000000.
Proof.
  intros Hp Hr Hn Hdue L U.
  destruct (reachable_cases rebalancingParam self ltac:(lia) Hr) as [(_ & R1 & R2)|(R1 & R2)].
  - assert (Hy : truthy (rebalancing self) = true) by now rewrite R1.
    pose proof (CreateTargets_due self algorithm insights Hy Hdue Hn) as D.
    rewrite R2 in D. cbn beta in D.
    rewrite datetime_add_in_range in D; [exact D|]. unfold UTCMIN in *. lia.
  - exfalso. destruct (reachable_rebalancing _ _ Hr) as (self0 & E0 & E1 & _).
    destruct (init_rebalancing _ _ E0) as [(_ & Q1 & _)|(Hneg & _)]; [|lia].
    rewrite R1, Q1 in E1. discriminate.
Qed.

(** X20.  A model built with a positive number of days raises in
    [CreateTargets] at the end of the calendar: when the rebalancing time has
    come and the time that many days after the time of the call is after
    [datetime.max], [rebalancingFunc] raises [OverflowError], and so does the
    call. *)
Theorem CreateTargets_rebalancingTime_overflows (rebalancingParam : Z)
    (self : PortfolioModel.t) (algorithm : Algorithm) (insights : list Insight.t) :
  0 < rebalancingParam →
  reachable rebalancingParam self →
  nothing_to_do self algorithm insights = false →
  rebalancingTime self <= UtcTime algorithm →
  DATETIME_MAX < UtcTime algorithm + rebalancingParam * 86400000000 →
  CreateTargets self algorithm insights = None.
Proof.
  intros Hp Hr Hn Hdue U.
  destruct (reachable_cases rebalancingParam self ltac:(lia) Hr) as [(_ & R1 & R2)|(R1 & R2)].
  - assert (Hy : truthy (rebalancing self) = true) by now rewrite R1.
    pose proof (CreateTargets_due self algorithm insights Hy Hdue Hn) as D.
    rewrite R2 in D. cbn beta in D.
    now rewrite (datetime_add_overflow _ _ U) in D.
  - exfalso. destruct (reachable_rebalancing _ _ Hr) as (self0 & E0 & E1 & _).
    destruct (init_rebalancing _ _ E0) as [(_ & Q1 & _)|(Hneg & _)]; [|lia].
    rewrite R1, Q1 in E1. discriminate.
Qed.

(** [ShouldCreateTargets] says yes for two reasons only. *)
Lemma ShouldCreateTargets_iff (self : PortfolioModel.t) (algorithm : Algorithm)
    (l : list Insight.t) :
  ShouldCreateTargets self algorithm l = true
  ↔ (truthy (rebalancing self) = true ∧ rebalancingTime self <= UtcTime algorithm)
    ∨ ∃ insight, insight ∈ l ∧ disagrees algorithm insight.
Proof.
  unfold ShouldCreateTargets.
  assert (Hd : ∀ insight,
             (let holding := Portfolio algorithm (Insight.Symbol insight) in
              if negb (SecurityHolding.Invested holding)
                 && bool_decide (Insight.Direction insight ≠ Flat) then true
              else if SecurityHolding.IsLong holding
                      && bool_decide (Insight.Direction insight ≠ Up) then true
              else if SecurityHolding.IsShort holding
                      && bool_decide (Insight.Direction insight ≠ Down) then true
              else false) = true ↔ disagrees algorithm insight).
  { intros insight. unfold disagrees. cbn zeta.
    destruct (SecurityHolding.Invested _), (SecurityHolding.IsLong _),
      (SecurityHolding.IsShort _), (Insight.Direction insight); cbn;
      repeat case_bool_decide; cbn; intuition congruence. }
  destruct (truthy (rebalancing self) && (rebalancingTime self <=? UtcTime algorithm))
    eqn:Eb.
  - apply andb_true_iff in Eb. destruct Eb as [E1 E2]. apply Z.leb_le in E2. tauto.
  - rewrite existsb_exists. split.
    + intros (x & Hx & Hb). right. exists x. split; [now apply list_elem_of_In|].
      now apply Hd.
    + intros [[E1 E2]|(x & Hx & Hb)].
      * apply Z.leb_le in E2. rewrite E1, E2 in Eb. discriminate.
      * exists x. split; [now apply list_elem_of_In|]. now apply Hd.
Qed.

(** X12.  As [main.py] builds the model, with [rebalancingParam = False],
    no rebalancing is ever scheduled: in every state the model can reach
    [rebalancing] is false and [rebalancingTime] is still [UTCMIN], and
    [ShouldCreateTargets] says yes exactly when some insight asks for
    something else than what the portfolio holds. *)
Theorem Main_never_rebalances_on_schedule (self : PortfolioModel.t) :
  reachable Main.rebalancingParam self →
  truthy (rebalancing self) = false
  ∧ rebalancingTime self = UTCMIN
  ∧ ∀ algorithm lastActiveInsights,
      ShouldCreateTargets self algorithm lastActiveInsights = true
      ↔ ∃ insight, insight ∈ lastActiveInsights ∧ disagrees algorithm insight.
Proof.
  intros Hr.
  assert (Hoff : ∀ self, reachable Main.rebalancingParam self →
                         truthy (rebalancing self) = false).
  { intros self1 Hr1. destruct (reachable_rebalancing _ _ Hr1) as (self0 & E0 & E1 & _).
    inversion E0; subst self0. now rewrite E1. }
  pose proof (Hoff self Hr) as Hb.
  split; [exact Hb|]. split.
  - induction Hr as [self E0|self algorithm insights targets self' Hr IH E
                     |self algorithm changes Hr IH].
    + inversion E0; subst self. reflexivity.
    + pose proof (Hoff self Hr) as Hb0.
      specialize (IH Hb0).
      destruct (nothing_to_do self algorithm insights) eqn:Hn.
      * destruct (nothing_to_do_true _ _ _ Hn) as (_ & _ & _ & E').
        rewrite E' in E. now inversion E; subst.
      * destruct (CreateTargets_inv _ _ _ _ _ E Hn)
          as (l & _ & _ & _ & _ & _ & _ & _ & Hrt).
        rewrite Hb0, andb_false_r in Hrt. now rewrite Hrt.
    + apply IH. exact Hb.
  - intros algorithm l. rewrite ShouldCreateTargets_iff, Hb. split; [|tauto].
    intros [[X _]|X]; [discriminate|exact X].
Qed.

(** X13.  With [rebalancing] off, a call in which no active insight asks
    for something else than what the portfolio holds creates no new position:
    every target of the returned list has quantity [0], and the rebalancing
    time stays. *)
Theorem CreateTargets_steady (self : PortfolioModel.t) (algorithm : Algorithm)
    (insights : list Insight.t) (targets : list PortfolioTarget.t)
    (self' : PortfolioModel.t) :
  truthy (rebalancing self) = false →
  (∀ insight,
     insight ∈ GetActiveInsights (fold_left Add insights (insightCollection self))
                                 (UtcTime algorithm) →
     ¬ disagrees algorithm insight) →
  CreateTargets self algorithm insights = Some (targets, self') →
  (∀ target, target ∈ targets → PortfolioTarget.Quantity target = 0%Q)
  ∧ rebalancingTime self' = rebalancingTime self.
Proof.
  intros Hb Hagree E. destruct (nothing_to_do self algorithm insights) eqn:Hn.
  { destruct (nothing_to_do_true _ _ _ Hn) as (_ & _ & _ & E').
    rewrite E' in E. inversion E; subst. split; [|reflexivity].
    intros target Hin. inversion Hin. }
  destruct (CreateTargets_inv _ _ _ _ _ E Hn) as (l & Hl & Ht & _ & _ & _ & _ & _ & Hrt).
  assert (Hs : ShouldCreateTargets self algorithm l = false).
  { destruct (ShouldCreateTargets self algorithm l) eqn:Es; [exfalso|reflexivity].
    apply ShouldCreateTargets_iff in Es. destruct Es as [[X _]|(x & Hx & Hd)].
    - rewrite Hb in X. discriminate.
    - exact (Hagree x (lastActiveInsights_subset _ _ Hl x Hx) Hd). }
  rewrite Hs in Ht, Hrt. cbn in Hrt. split; [|exact Hrt].
  intros target Hin. subst targets. apply elem_of_app in Hin. destruct Hin as [Hin|Hin].
  - destruct (removedSymbols self) as [removed|]; [|inversion Hin].
    unfold universeDeselectionTargets in Hin. apply list_elem_of_fmap in Hin.
    destruct Hin as (symbol & -> & _). reflexivity.
  - unfold expiredTargets in Hin. apply list_elem_of_omap in Hin.
    destruct Hin as ([k g] & _ & Hk).
    destruct (_ && _); [|discriminate]. inversion Hk; subst. reflexivity.
Qed.

End Facts.
End PortfolioLifeFacts.

(** *** The properties on sample runs *)

Module PortfolioLifeRuns.
Import PortfolioModel PercentNotions TargetNotions.
Import Samples PortfolioSamples PortfolioLife CreateTargetsMore PortfolioLifeFacts.

(** The fresh model after a call with the insight [down_BBB]. *)
Definition short_BBB : PortfolioModel.t :=
  {| insightCollection := [down_BBB];
     removedSymbols := None;
     nextExpiryTime := 100;
     rebalancingTime := UTCMIN;
     rebalancing := 0;
     rebalancingFunc := None |}.

(** The target of that call: all of the portfolio value, 100000, short in
    [BBB] at the price 10. *)
Definition short_BBB_target : PortfolioTarget.t :=
  Eval vm_compute in
    PortfolioTarget.mk BBB
      (Float.mul (Float.of_int (-1)) (Float.div 1 (Float.of_int 1)) * 100000 / 10)%Q.

Example first_call_run :
  CreateTargets fresh algorithm [down_BBB] = Some ([short_BBB_target], short_BBB).
Proof. vm_compute. reflexivity. Qed.

Example removal_run :
  CreateTargets (OnSecuritiesChanged fresh algorithm changes) algorithm []
  = Some ([PortfolioTarget.mk AAA 0; PortfolioTarget.mk BBB 0], idle).
Proof. vm_compute. reflexivity. Qed.

Lemma CreateTargets_clears_removedSymbols_witness :
  CreateTargets (OnSecuritiesChanged fresh algorithm changes) algorithm []
  = Some ([PortfolioTarget.mk AAA 0; PortfolioTarget.mk BBB 0], idle)
  ∧ removedSymbols idle = None.
Proof.
  split; [exact removal_run|].
  exact (CreateTargets_clears_removedSymbols _ _ _ _ _ removal_run).
Defined.

Lemma CreateTargets_again_witness :
  (CreateTargets fresh algorithm [down_BBB] = Some ([short_BBB_target], short_BBB)
   ∧ UtcTime algorithm <= nextExpiryTime short_BBB)
  ∧ CreateTargets short_BBB algorithm [] = Some ([], short_BBB).
Proof.
  assert (Ht : UtcTime algorithm <= nextExpiryTime short_BBB) by (cbn; lia).
  split; [split; [exact first_call_run|exact Ht]|].
  exact (CreateTargets_again _ _ _ _ _ first_call_run Ht).
Defined.

Lemma CreateTargets_provenance_witness :
  (CreateTargets fresh algorithm [down_BBB] = Some ([short_BBB_target], short_BBB)
   ∧ short_BBB_target ∈ [short_BBB_target])
  ∧ ((∃ removed symbol,
        removedSymbols fresh = Some removed ∧ symbol ∈ removed
        ∧ short_BBB_target = PortfolioTarget.mk symbol 0)
     ∨ (∃ insight,
          insight ∈ (RemoveExpiredInsights
                       (fold_left Add [down_BBB] (insightCollection fresh))
                       (UtcTime algorithm)).1
          ∧ HasActiveInsights
              (RemoveExpiredInsights
                 (fold_left Add [down_BBB] (insightCollection fresh))
                 (UtcTime algorithm)).2
              (Insight.Symbol insight) (UtcTime algorithm) = false
          ∧ short_BBB_target = PortfolioTarget.mk (Insight.Symbol insight) 0)
     ∨ (∃ insight p,
          insight ∈ GetActiveInsights
                      (fold_left Add [down_BBB] (insightCollection fresh))
                      (UtcTime algorithm)
          ∧ (-1 <= p)%Q ∧ (p <= 1)%Q
          ∧ Percent algorithm (Insight.Symbol insight) p = Some short_BBB_target)).
Proof.
  assert (Hin : short_BBB_target ∈ [short_BBB_target]) by left.
  split; [split; [exact first_call_run|exact Hin]|].
  exact (CreateTargets_provenance _ _ _ _ _ _ first_call_run Hin).
Defined.

(** The fresh model is the model of [main.py]; its first call returned. *)
Lemma reachable_short_BBB : reachable 0 short_BBB.
Proof.
  exact (reachable_CreateTargets 0 _ _ _ _ _ (reachable_init 0 fresh eq_refl)
           first_call_run).
Qed.

(** A model that rebalances every 7 days, called for the first time, at
    time 50. *)
Lemma CreateTargets_never_raises_witness :
  (0 <= 7 ∧ reachable 7 weekly
   ∧ UTCMIN <= UtcTime algorithm
   ∧ UtcTime algorithm + 7 * 86400000000 <= DATETIME_MAX)
  ∧ ∃ targets self', CreateTargets weekly algorithm [up_AAA] = Some (targets, self').
Proof.
  assert (Hp : 0 <= 7) by lia.
  assert (Hr : reachable 7 weekly) by exact (reachable_init 7 weekly eq_refl).
  assert (L : UTCMIN <= UtcTime algorithm) by (vm_compute; discriminate).
  assert (U : UtcTime algorithm + 7 * 86400000000 <= DATETIME_MAX)
    by (vm_compute; discriminate).
  split; [tauto|].
  exact (CreateTargets_never_raises 7 weekly algorithm [up_AAA] Hp Hr L U).
Defined.

Lemma CreateTargets_negative_days_raises_witness :
  (-1 < 0 ∧ UTCMIN <= UtcTime algorithm)
  ∧ ∃ self, init (-1) = Some self ∧ CreateTargets self algorithm [up_AAA] = None.
Proof.
  assert (Hp : -1 < 0) by lia.
  assert (Ht : UTCMIN <= UtcTime algorithm) by (cbn; unfold UTCMIN; lia).
  split; [split; [exact Hp|exact Ht]|].
  exact (CreateTargets_negative_days_raises (-1) algorithm [up_AAA] Hp Ht).
Defined.

Lemma CreateTargets_next_rebalancingTime_witness :
  (0 < 7 ∧ reachable 7 weekly
   ∧ nothing_to_do weekly algorithm [] = false
   ∧ rebalancingTime weekly <= UtcTime algorithm
   ∧ UTCMIN <= UtcTime algorithm
   ∧ UtcTime algorithm + 7 * 86400000000 <= DATETIME_MAX)
  ∧ ∃ targets self',
      CreateTargets weekly algorithm [] = Some (targets, self')
      ∧ rebalancingTime self' = UtcTime algorithm + 7 * 86400000000.
Proof.
  assert (Hp : 0 < 7) by lia.
  assert (Hr : reachable 7 weekly) by exact (reachable_init 7 weekly eq_refl).
  assert (Hn : nothing_to_do weekly algorithm [] = false) by reflexivity.
  assert (Hd : rebalancingTime weekly <= UtcTime algorithm) by (cbn; unfold UTCMIN; lia).
  assert (L : UTCMIN <= UtcTime algorithm) by (vm_compute; discriminate).
  assert (U : UtcTime algorithm + 7 * 86400000000 <= DATETIME_MAX)
    by (vm_compute; discriminate).
  split; [tauto|].
  exact (CreateTargets_next_rebalancingTime 7 weekly algorithm [] Hp Hr Hn Hd L U).
Defined.

(** A model that would rebalance every 4000000 days, called for the first
    time, at time 50. *)
Lemma CreateTargets_rebalancingTime_overflows_witness :
  (0 < 4000000 ∧ reachable 4000000 too_long
   ∧ nothing_to_do too_long algorithm [] = false
   ∧ rebalancingTime too_long <= UtcTime algorithm
   ∧ DATETIME_MAX < UtcTime algorithm + 4000000 * 86400000000)
  ∧ CreateTargets too_long algorithm [] = None.
Proof.
  assert (Hp : 0 < 4000000) by lia.
  assert (Hr : reachable 4000000 too_long)
    by exact (reachable_init 4000000 too_long eq_refl).
  assert (Hn : nothing_to_do too_long algorithm [] = false) by reflexivity.
  assert (Hd : rebalancingTime too_long <= UtcTime algorithm) by (cbn; unfold UTCMIN; lia).
  assert (U : DATETIME_MAX < UtcTime algorithm + 4000000 * 86400000000)
    by (vm_compute; reflexivity).
  split; [tauto|].
  exact (CreateTargets_rebalancingTime_overflows 4000000 too_long algorithm []
           Hp Hr Hn Hd U).
Defined.

Lemma Main_never_rebalances_on_schedule_witness :
  reachable Main.rebalancingParam short_BBB
  ∧ truthy (rebalancing short_BBB) = false
  ∧ rebalancingTime short_BBB = UTCMIN
  ∧ ∀ algorithm lastActiveInsights,
      ShouldCreateTargets short_BBB algorithm lastActiveInsights = true
      ↔ ∃ insight, insight ∈ lastActiveInsights ∧ disagrees algorithm insight.
Proof.
  assert (Hr : reachable Main.rebalancingParam short_BBB) by exact reachable_short_BBB.
  split; [exact Hr|].
  exact (Main_never_rebalances_on_schedule short_BBB Hr).
Defined.

(** [BBB] is held long, for an insight [Up] that is still active; a
    second insight [Up] for [BBB] arrives. *)
Definition long_BBB : PortfolioModel.t :=
  {| insightCollection := [Insight.mk 4 BBB Up 10 100];
     removedSymbols := None;
     nextExpiryTime := 100;
     rebalancingTime := UTCMIN;
     rebalancing := 0;
     rebalancingFunc := None |}.

Definition algorithm_long : ListHost.algorithm :=
  {| ListHost.utcTime := 50;
     ListHost.holdings := λ _, SecurityHolding.mk true true false;
     ListHost.price := λ _, 10%Q;
     ListHost.totalPortfolioValue := 100000%Q |}.

Definition long_BBB' : PortfolioModel.t :=
  {| insightCollection := [Insight.mk 4 BBB Up 10 100; Insight.mk 8 BBB Up 50 150];
     removedSymbols := None;
     nextExpiryTime := 100;
     rebalancingTime := UTCMIN;
     rebalancing := 0;
     rebalancingFunc := None |}.

Example steady_run :
  CreateTargets long_BBB algorithm_long [Insight.mk 8 BBB Up 50 150]
  = Some ([], long_BBB').
Proof. vm_compute. reflexivity. Qed.

Lemma CreateTargets_steady_witness :
  (truthy (rebalancing long_BBB) = false
   ∧ (∀ insight,
        insight ∈ GetActiveInsights
                    (fold_left Add [Insight.mk 8 BBB Up 50 150]
                               (insightCollection long_BBB))
                    (UtcTime algorithm_long) →
        ¬ disagrees algorithm_long insight)
   ∧ CreateTargets long_BBB algorithm_long [Insight.mk 8 BBB Up 50 150]
     = Some ([], long_BBB'))
  ∧ (∀ target, target ∈ ([] : list PortfolioTarget.t) →
               PortfolioTarget.Quantity target = 0%Q)
  ∧ rebalancingTime long_BBB' = rebalancingTime long_BBB.
Proof.
  assert (Hb : truthy (rebalancing long_BBB) = false) by reflexivity.
  assert (Ha : ∀ insight,
             insight ∈ GetActiveInsights
                         (fold_left Add [Insight.mk 8 BBB Up 50 150]
                                    (insightCollection long_BBB))
                         (UtcTime algorithm_long) →
             ¬ disagrees algorithm_long insight).
  { intros insight Hin.
    change (insight ∈ [Insight.mk 4 BBB Up 10 100; Insight.mk 8 BBB Up 50 150]) in Hin.
    apply elem_of_cons in Hin. destruct Hin as [->|Hin].
    - unfold disagrees; cbn. intros [[? ?]|[[? ?]|[? ?]]]; congruence.
    - apply list_elem_of_singleton in Hin. subst insight.
      unfold disagrees; cbn. intros [[? ?]|[[? ?]|[? ?]]]; congruence. }
  split; [split; [exact Hb|split; [exact Ha|exact steady_run]]|].
  exact (CreateTargets_steady long_BBB algorithm_long _ _ _ Hb Ha steady_run).
Defined.

End PortfolioLifeRuns.

(** ** More on the universe selection model *)

Module UniverseLife.
Import UniverseModel.

(** A sequence of calls of [SelectCoarse], each with its algorithm instance
    and its coarse data: what the calls return, in turn, and [self] after the
    last one. *)
Fixpoint SelectCoarse_calls (self : UniverseModel.t)
    (calls : list (QCAlgorithm.t * list CoarseFundamental.t))
  : list Selection * UniverseModel.t :=
  match calls with
  | [] => ([], self)
  | (algorithm, coarse) :: rest =>
      let '(selection, self, _) := SelectCoarse self algorithm coarse in
      let '(selections, self) := SelectCoarse_calls self rest in
      (selection :: selections, self)
  end.

(** What a call returns when the year before it was [previous]. *)
Definition selection_after (previous : Z)
    (call : QCAlgorithm.t * list CoarseFundamental.t) : Selection :=
  if QCAlgorithm.Time_year call.1 =? previous then Unchanged
  else Symbols (map CoarseFundamental.Symbol (filterCoarse call.2)).

End UniverseLife.

Module UniverseMore.
Import UniverseModel UniverseFacts UniverseLife.

(** X14.  In a sequence of calls, [SelectCoarse] selects once for each run
    of calls of one year: a call returns [Universe.Unchanged] exactly when
    its year is the year of the call before it (for the first call, the year
    in [periodCheck]), and otherwise the symbols that pass the filter of its
    own coarse data. *)
Theorem SelectCoarse_once_a_year (self : UniverseModel.t)
    (calls : list (QCAlgorithm.t * list CoarseFundamental.t)) :
  (SelectCoarse_calls self calls).1
  = zip_with selection_after
      (periodCheck self :: map (λ call, QCAlgorithm.Time_year call.1) calls) calls.
Proof.
  revert self. induction calls as [|[algorithm coarse] calls IH]; intros self;
    [reflexivity|].
  cbn [SelectCoarse_calls map zip_with]. unfold SelectCoarse, selection_after at 1.
  cbn [fst snd].
  destruct (Z.eqb_spec (QCAlgorithm.Time_year algorithm) (periodCheck self)) as [E|E].
  - specialize (IH self). destruct (SelectCoarse_calls self calls) as [rs s'].
    cbn [fst] in *. rewrite IH, E. reflexivity.
  - specialize (IH {| periodCheck := QCAlgorithm.Time_year algorithm |}).
    destruct (SelectCoarse_calls _ calls) as [rs s']. cbn [fst] in *.
    rewrite IH. reflexivity.
Qed.

(** X15.  After a call of [SelectCoarse], [periodCheck] is the year of the
    call.  The symbols it returns are symbols of [coarse], in the order of
    [coarse], and the line it logs gives their number; when it returns
    [Universe.Unchanged] it logs nothing and leaves [self] as it is. *)
Theorem SelectCoarse_result (self : UniverseModel.t) (algorithm : QCAlgorithm.t)
    (coarse : list CoarseFundamental.t) :
  let '(selection, self', log) := SelectCoarse self algorithm coarse in
  periodCheck self' = QCAlgorithm.Time_year algorithm
  ∧ match selection with
    | Unchanged => self' = self ∧ log = []
    | Symbols coarseSelection =>
        coarseSelection `sublist_of` map CoarseFundamental.Symbol coarse
        ∧ log = ["stocks with fundamental data and price above 5: "
                   +:+ Py.str_int (length coarseSelection)]
    end.
Proof.
  unfold SelectCoarse.
  destruct (Z.eqb_spec (QCAlgorithm.Time_year algorithm) (periodCheck self)) as [E|E].
  - split; [now rewrite E|]. split; reflexivity.
  - split; [reflexivity|]. split.
    + apply (fmap_sublist CoarseFundamental.Symbol), sublist_filter.
    + now rewrite length_map.
Qed.

Section Fine.
Context `{Library}.

(** X16.  The symbols that [SelectFine] returns are symbols of [fine], in
    the order of [fine].  It logs the number of small caps, the number of
    selected securities, and one line for each selected security. *)
Theorem SelectFine_result (self : UniverseModel.t) (algorithm : QCAlgorithm.t)
    (fine : list FineFundamental.t) (fineSelection : list Symbol.t)
    (log : list string) :
  SelectFine self algorithm fine = Some (fineSelection, log) →
  fineSelection `sublist_of` map FineFundamental.Symbol fine
  ∧ log !! 0%nat
    = Some ("total number of small caps: " +:+ Py.str_int (length (filterFine fine)))
  ∧ log !! 1%nat
    = Some ("small caps in the 1st PE Ratio percentile: "
              +:+ Py.str_int (length fineSelection))
  ∧ length log = (2 + length fineSelection)%nat.
Proof.
  unfold SelectFine. intros E.
  destruct (percentile (map FineFundamental.PERatio (filterFine fine)) 1) as [pct|];
    [|discriminate].
  cbn [mbind option_bind] in E. inversion E; subst. split; [|split; [|split]].
  - apply (fmap_sublist FineFundamental.Symbol). unfold lowestPERatio, filterFine.
    etransitivity; apply sublist_filter.
  - reflexivity.
  - cbn. now rewrite length_map.
  - cbn [app length]. now rewrite !length_map.
Qed.


(** X18.  The selection is closed downwards: with a selected security,
    every small cap whose P/E ratio is not larger is selected too. *)
Theorem SelectFine_downward_closed (self : UniverseModel.t)
    (algorithm : QCAlgorithm.t) (fine : list FineFundamental.t)
    (fineSelection : list Symbol.t) (log : list string) :
  SelectFine self algorithm fine = Some (fineSelection, log) →
  ∃ selected,
    fineSelection = map FineFundamental.Symbol selected
    ∧ selected `sublist_of` filterFine fine
    ∧ ∀ x y, x ∈ selected → y ∈ filterFine fine →
             (FineFundamental.PERatio y <= FineFundamental.PERatio x)%Q →
             y ∈ selected.
Proof.
  unfold SelectFine. intros E.
  destruct (percentile (map FineFundamental.PERatio (filterFine fine)) 1) as [pct|];
    [|discriminate].
  cbn [mbind option_bind] in E. inversion E; subst.
  exists (lowestPERatio pct (filterFine fine)). split; [reflexivity|].
  split; [apply sublist_filter|].
  intros x y Hx Hy Hle. unfold lowestPERatio in *.
  rewrite list_elem_of_filter in *. rewrite Qleb_le in *.
  split; [|exact Hy]. destruct Hx as [Hx _]. now apply (Qle_trans _ _ _ Hle).
Qed.

End Fine.

(** *** The linear percentile is not below every number of its list *)





(** *** The properties on the sample run *)

Lemma SelectFine_result_witness :
  SelectFine init UniverseSamples.algorithm UniverseSamples.fine
  = Some ([Samples.AAA],
          ["total number of small caps: 3";
           "small caps in the 1st PE Ratio percentile: 1";
           "stock: AAA, current PE Ratio: 4.00"])
  ∧ [Samples.AAA] `sublist_of` map FineFundamental.Symbol UniverseSamples.fine
  ∧ ["total number of small caps: 3";
     "small caps in the 1st PE Ratio percentile: 1";
     "stock: AAA, current PE Ratio: 4.00"] !! 0%nat
    = Some ("total number of small caps: "
              +:+ Py.str_int (length (filterFine UniverseSamples.fine)))
  ∧ ["total number of small caps: 3";
     "small caps in the 1st PE Ratio percentile: 1";
     "stock: AAA, current PE Ratio: 4.00"] !! 1%nat
    = Some ("small caps in the 1st PE Ratio percentile: "
              +:+ Py.str_int (length [Samples.AAA]))
  ∧ length ["total number of small caps: 3";
            "small caps in the 1st PE Ratio percentile: 1";
            "stock: AAA, current PE Ratio: 4.00"]
    = (2 + length [Samples.AAA])%nat.
Proof.
  split; [exact UniverseClaims.SelectFine_run|].
  exact (SelectFine_result init UniverseSamples.algorithm UniverseSamples.fine _ _
           UniverseClaims.SelectFine_run).
Defined.


Lemma SelectFine_downward_closed_witness :
  SelectFine init UniverseSamples.algorithm UniverseSamples.fine
  = Some ([Samples.AAA],
          ["total number of small caps: 3";
           "small caps in the 1st PE Ratio percentile: 1";
           "stock: AAA, current PE Ratio: 4.00"])
  ∧ ∃ selected,
      [Samples.AAA] = map FineFundamental.Symbol selected
      ∧ selected `sublist_of` filterFine UniverseSamples.fine
      ∧ ∀ x y, x ∈ selected → y ∈ filterFine UniverseSamples.fine →
               (FineFundamental.PERatio y <= FineFundamental.PERatio x)%Q →
               y ∈ selected.
Proof.
  split; [exact UniverseClaims.SelectFine_run|].
  exact (SelectFine_downward_closed init UniverseSamples.algorithm UniverseSamples.fine
           _ _ UniverseClaims.SelectFine_run).
Defined.

(** Three calls in 2015 and one in 2016, from the model as [main.py] builds
    it: the first call of each year selects. *)
Example SelectCoarse_calls_run :
  (SelectCoarse_calls Main.universeSelection
     [(QCAlgorithm.mk 2015, UniverseSamples.coarse);
      (QCAlgorithm.mk 2015, UniverseSamples.coarse);
      (QCAlgorithm.mk 2015, []);
      (QCAlgorithm.mk 2016, UniverseSamples.coarse)]).1
  = [Symbols [Samples.AAA]; Unchanged; Unchanged; Symbols [Samples.AAA]].
Proof. vm_compute. reflexivity. Qed.

End UniverseMore.

(** ** A notification that is overwritten *)

(** [OnSecuritiesChanged] stores the removed symbols of the last
    notification only.  With the list engine this is seen in the targets. *)
Module OverwrittenNotification.
Import PortfolioModel PercentNotions TargetNotions.
Import Samples PortfolioSamples PortfolioLife LastActiveInsights CreateTargetsMore PortfolioLifeRuns.

Lemma fold_Add (insights ic : list Insight.t) :
  fold_left (Add (Host := ListHost.host)) insights ic = ic ++ insights.
Proof.
  revert ic. induction insights as [|x insights IH]; intros ic; cbn [fold_left].
  - now rewrite app_nil_r.
  - rewrite IH. cbn. now rewrite <- app_assoc.
Qed.

(** X19.  Two notifications without a call of [CreateTargets] between them:
    a symbol that only the first one removed gets no target at all from the
    next call, unless a new insight names it.  Its flatten target is lost. *)
Theorem CreateTargets_forgets_first_notification
    (self : PortfolioModel.t) (algorithm1 algorithm2 algorithm : ListHost.algorithm)
    (changes1 changes2 : SecurityChanges.t) (insights : list Insight.t)
    (targets : list PortfolioTarget.t) (self' : PortfolioModel.t) (symbol : Symbol.t) :
  symbol ∈ map Security.Symbol (SecurityChanges.RemovedSecurities changes1) →
  symbol ∉ map Security.Symbol (SecurityChanges.RemovedSecurities changes2) →
  (∀ insight, insight ∈ insights → Insight.Symbol insight ≠ symbol) →
  CreateTargets
    (OnSecuritiesChanged (OnSecuritiesChanged self algorithm1 changes1)
                         algorithm2 changes2)
    algorithm insights
  = Some (targets, self') →
  ∀ target, target ∈ targets → PortfolioTarget.Symbol target ≠ symbol.
Proof.
  intros H1 H2 Hnew E target Hin.
  assert (Hic : ∀ insight,
             insight ∈ fold_left Add insights
                         (insightCollection
                            (OnSecuritiesChanged
                               (OnSecuritiesChanged self algorithm1 changes1)
                               algorithm2 changes2)) →
             Insight.Symbol insight ≠ symbol).
  { intros insight Hi. rewrite fold_Add in Hi. apply elem_of_app in Hi.
    destruct Hi as [Hi|Hi]; [|now apply Hnew].
    cbn in Hi. unfold ListHost.clear in Hi.
    rewrite !list_elem_of_filter in Hi. destruct Hi as (_ & Hs & _).
    intros Heq. apply Hs. now rewrite Heq. }
  assert (Hn : nothing_to_do
                 (OnSecuritiesChanged (OnSecuritiesChanged self algorithm1 changes1)
                                      algorithm2 changes2)
                 algorithm insights = false).
  { unfold nothing_to_do. cbn [OnSecuritiesChanged removedSymbols].
    rewrite bool_decide_false by discriminate. apply andb_false_r. }
  destruct (CreateTargets_inv _ _ _ _ _ E Hn) as (l & Hl & Ht & _).
  assert (Hdes : target ∈ universeDeselectionTargets
                            (map Security.Symbol
                               (SecurityChanges.RemovedSecurities changes2)) →
                 PortfolioTarget.Symbol target ≠ symbol).
  { intros Hx. apply (deselected_elem (Some _)) in Hx.
    destruct Hx as (removed & s & Hr & Hs & ->). inversion Hr; subst removed.
    cbn. intros ->. contradiction. }
  assert (Hexp : ∀ ic errs expired,
             (∀ insight, insight ∈ expired → Insight.Symbol insight ≠ symbol) →
             target ∈ expiredTargets ic (UtcTime algorithm) errs expired →
             PortfolioTarget.Symbol target ≠ symbol).
  { intros ic errs expired Hsub Hx. apply expiredTargets_elem in Hx.
    destruct Hx as (insight & Hi & _ & ->). cbn. now apply Hsub. }
  assert (Hexpired : ∀ insight,
             insight ∈ (RemoveExpiredInsights
                          (fold_left Add insights
                             (insightCollection
                                (OnSecuritiesChanged
                                   (OnSecuritiesChanged self algorithm1 changes1)
                                   algorithm2 changes2)))
                          (UtcTime algorithm)).1 →
             Insight.Symbol insight ≠ symbol).
  { intros insight Hi. apply Hic. cbn in Hi.
    unfold ListHost.removeExpiredInsights in Hi. cbn in Hi.
    apply list_elem_of_filter in Hi. tauto. }
  subst targets. cbn [OnSecuritiesChanged removedSymbols] in Hin.
  destruct (ShouldCreateTargets _ _ l).
  - cbn zeta in Hin. rewrite !elem_of_app in Hin. destruct Hin as [Hx|[Hx|Hx]].
    + now apply Hdes.
    + apply percent_targets_elem in Hx. destruct Hx as (insight & p & Hi & _ & _ & Hp).
      cbn in Hp. unfold ListHost.percent in Hp.
      destruct (Qleb _ 0); [discriminate|]. inversion Hp; subst target. cbn.
      apply Hic. apply (lastActiveInsights_subset _ _ Hl) in Hi. cbn in Hi.
      unfold ListHost.getActiveInsights in Hi. apply list_elem_of_filter in Hi. tauto.
    + eapply Hexp; [exact Hexpired|exact Hx].
  - rewrite elem_of_app in Hin. destruct Hin as [Hx|Hx].
    + now apply Hdes.
    + eapply Hexp; [exact Hexpired|exact Hx].
Qed.

(** [AAA] and [BBB] leave the universe; a second notification removes
    nothing; the next call returns no target. *)
Definition no_changes : SecurityChanges.t :=
  {| SecurityChanges.AddedSecurities := [];
     SecurityChanges.RemovedSecurities := [] |}.

Example forgotten_run :
  CreateTargets
    (OnSecuritiesChanged (OnSecuritiesChanged fresh algorithm changes)
                         algorithm no_changes)
    algorithm []
  = Some ([], idle).
Proof. vm_compute. reflexivity. Qed.

Lemma CreateTargets_forgets_first_notification_witness :
  (AAA ∈ map Security.Symbol (SecurityChanges.RemovedSecurities changes)
   ∧ (AAA ∉ map Security.Symbol (SecurityChanges.RemovedSecurities no_changes))
   ∧ (∀ insight, insight ∈ ([] : list Insight.t) → Insight.Symbol insight ≠ AAA)
   ∧ CreateTargets
       (OnSecuritiesChanged (OnSecuritiesChanged fresh algorithm changes)
                            algorithm no_changes)
       algorithm []
     = Some ([], idle))
  ∧ ∀ target, target ∈ ([] : list PortfolioTarget.t) →
              PortfolioTarget.Symbol target ≠ AAA.
Proof.
  assert (H1 : AAA ∈ map Security.Symbol (SecurityChanges.RemovedSecurities changes))
    by left.
  assert (H2 : AAA ∉ map Security.Symbol (SecurityChanges.RemovedSecurities no_changes))
    by (intros X; inversion X).
  assert (H3 : ∀ insight, insight ∈ ([] : list Insight.t) →
                          Insight.Symbol insight ≠ AAA)
    by (intros insight X; inversion X).
  split; [tauto|].
  exact (CreateTargets_forgets_first_notification fresh algorithm algorithm algorithm
           changes no_changes [] [] idle AAA H1 H2 H3 forgotten_run).
Defined.

End OverwrittenNotification.
